(** * csv2html: the CSV loader, the page generator and the command line

    A shallow embedding of [csv2html.py].  Python strings are sequences of
    Unicode code points; the functions of [str] that the program calls are
    written out below.  pandas, pathlib and the file system are the
    program's collaborators: what the program relies on from them is either
    modelled here (the data frame of pandas 1.x and 2.x, where a column of
    text has dtype object, and its HTML writer) or taken as a variable of a
    section (the CSV parser, the codecs, the path algebra, the fixed text of
    the page). *)

From Stdlib Require Import NArith String Ascii DecimalNat.
From stdpp Require Import base option list sorting gmap.

Local Open Scope N_scope.
Local Open Scope list_scope.

(** ** Python strings *)

(** A character is its code point, a [str] the list of its characters. *)
Definition char := N.
Definition str := list char.

(** A literal of the source, written as a Rocq string (ASCII only). *)
Definition lit (s : string) : str :=
  List.map N_of_ascii (list_ascii_of_string s).

Arguments lit : simpl never.

Definition dquote : char := 34.
Definition newline : char := 10.
Definition tab : char := 9.
Definition comma : char := 44.
Definition semicolon : char := 59.
Definition pipe : char := 124.

(** [str.isspace] on one character: the code points Python's [strip()]
    removes when it is called without an argument. *)
Definition isspace (c : char) : bool :=
  ((9 <=? c) && (c <=? 13)) || ((28 <=? c) && (c <=? 32))
  || (c =? 133) || (c =? 160) || (c =? 5760)
  || ((8192 <=? c) && (c <=? 8202))
  || (c =? 8232) || (c =? 8233) || (c =? 8239) || (c =? 8287) || (c =? 12288).

(** [s.lstrip], [s.rstrip] and [s.strip] over a set of characters given by
    its membership test: every leading (trailing) character of the set goes,
    however many there are. *)
Fixpoint lstrip_by (p : char -> bool) (s : str) : str :=
  match s with
  | [] => []
  | c :: s' => if p c then lstrip_by p s' else s
  end.

Definition rstrip_by (p : char -> bool) (s : str) : str :=
  rev (lstrip_by p (rev s)).

Definition strip_by (p : char -> bool) (s : str) : str :=
  rstrip_by p (lstrip_by p s).

(** [s.strip()] *)
Definition strip (s : str) : str := strip_by isspace s.

(** [s.strip(chars)] *)
Definition strip_chars (chars : str) (s : str) : str :=
  strip_by (fun c => existsb (N.eqb c) chars) s.

(** [c in s] for a one-character string [c]. *)
Definition contains (c : char) (s : str) : bool := existsb (N.eqb c) s.

(** [s.split(sep)] for a one-character separator, the only kind the program
    uses: the fields between the occurrences of [sep], empty ones kept. *)
Fixpoint split (sep : char) (s : str) : list str :=
  match s with
  | [] => [[]]
  | c :: s' =>
      if c =? sep then [] :: split sep s'
      else match split sep s' with
           | [] => [[c]]
           | f :: fs => (c :: f) :: fs
           end
  end.

(** [str(n)] for a non-negative integer. *)
Fixpoint digits (u : Decimal.uint) : str :=
  match u with
  | Decimal.Nil => []
  | Decimal.D0 u => 48 :: digits u
  | Decimal.D1 u => 49 :: digits u
  | Decimal.D2 u => 50 :: digits u
  | Decimal.D3 u => 51 :: digits u
  | Decimal.D4 u => 52 :: digits u
  | Decimal.D5 u => 53 :: digits u
  | Decimal.D6 u => 54 :: digits u
  | Decimal.D7 u => 55 :: digits u
  | Decimal.D8 u => 56 :: digits u
  | Decimal.D9 u => 57 :: digits u
  end.

Definition str_of_nat (n : nat) : str := digits (Nat.to_uint n).

(** The order of [sorted] on strings: lexicographic on code points, so
    upper case sorts before lower case. *)
Fixpoint str_leb (a b : str) : bool :=
  match a, b with
  | [], _ => true
  | _ :: _, [] => false
  | x :: a', y :: b' =>
      if x <? y then true else if x =? y then str_leb a' b' else false
  end.

Definition str_le (a b : str) : Prop := str_leb a b = true.

#[global] Instance str_le_dec : RelDecision str_le.
Proof. intros a b. unfold str_le. apply _. Defined.

(** [sorted(l)] for a list of strings. *)
Definition sorted (l : list str) : list str := merge_sort str_le l.

(** ** The manual fallback parser of [repair_and_read_csv] *)

(** [[line.strip() for line in content.split('\n') if line.strip()]] *)
Definition nonempty_lines (content : str) : list str :=
  List.map strip
    (List.filter (fun line => negb (Nat.eqb (length (strip line)) 0))
                 (split newline content)).

(** The delimiter loop:
    [delimiter = ','; for d in [';', '\t', '|', ',']: if d in first_line:
     delimiter = d; break]. *)
Definition manual_candidates : list char := [semicolon; tab; pipe; comma].

Fixpoint detect_loop (ds : list char) (first_line : str) (delimiter : char)
  : char :=
  match ds with
  | [] => delimiter
  | d :: ds' =>
      if contains d first_line then d else detect_loop ds' first_line delimiter
  end.

Definition detect_delimiter (first_line : str) : char :=
  detect_loop manual_candidates first_line comma.

(** [cell.strip().strip(DQ)], where DQ is the one-character string holding
    a double quote. *)
Definition clean_field (f : str) : str := strip_chars [dquote] (strip f).

(** [[cell.strip().strip(DQ) for cell in line.split(delimiter)]] *)
Definition split_fields (delimiter : char) (line : str) : list str :=
  List.map clean_field (split delimiter line).

(** The row loop: [for line in lines[1:]: row = ...;
    if len(row) == len(headers): data.append(row)]. *)
Fixpoint collect_rows (delimiter : char) (headers : list str)
  (lines : list str) (data : list (list str)) : list (list str) :=
  match lines with
  | [] => data
  | line :: rest =>
      let row := split_fields delimiter line in
      if Nat.eqb (length row) (length headers) then
        collect_rows delimiter headers rest (data ++ [row])
      else collect_rows delimiter headers rest data
  end.

(** The detected delimiter and what the manual parser hands to
    [pd.DataFrame(data, columns=headers)], or [None] where the function
    returns [None]. *)
Definition manual_parse (content : str)
  : option (char * list str * list (list str)) :=
  let lines := nonempty_lines content in
  if Nat.ltb (length lines) 2 then None
  else
    match lines with
    | [] => None
    | first_line :: rest =>
        let delimiter := detect_delimiter first_line in
        let headers := split_fields delimiter first_line in
        let data := collect_rows delimiter headers rest [] in
        match data with
        | [] => None
        | _ :: _ => Some (delimiter, headers, data)
        end
    end.


(** ** Exceptions *)

(** The exception classes the program meets, each with its message
    ([str(e)]).  All derive from [Exception]. *)
Inductive exn :=
| FileNotFoundError (msg : str)
| ValueError (msg : str)
| AttributeError (msg : str)
| UnicodeDecodeError (msg : str)
| EmptyDataError (msg : str)
| ParserError (msg : str)
| OSError (msg : str)
| UnicodeEncodeError (msg : str).

Definition exn_str (e : exn) : str :=
  match e with
  | FileNotFoundError m | ValueError m | AttributeError m
  | UnicodeDecodeError m | EmptyDataError m | ParserError m | OSError m
  | UnicodeEncodeError m => m
  end.

Inductive result (A : Type) :=
| Ok (a : A)
| Raise (e : exn).
Arguments Ok {A} a.
Arguments Raise {A} e.

(** ** Data frames *)

Inductive dtype := object | int64 | float64 | bool_.

#[global] Instance dtype_eq_dec : EqDecision dtype.
Proof. solve_decision. Defined.

Inductive encoding := utf_8 | latin_1 | cp1252 | iso_8859_1.

#[global] Instance encoding_eq_dec : EqDecision encoding.
Proof. solve_decision. Defined.

Definition bytes := list Byte.byte.

Section Frames.

(** The numeric and boolean scalars of a parsed column (numpy's int64,
    float64 and bool), with Python's [str()] of one and the text pandas
    displays for one. *)
Context {scalar : Type}.
Variable str_scalar : scalar -> str.
Variable fmt_scalar : scalar -> str.

Inductive value :=
| NaN
| Str (s : str)
| Num (x : scalar).

Record Series := mkSeries { s_dtype : dtype; s_values : list value }.

(** A frame is its columns in display order, each a name and a Series. *)
Definition DataFrame := list (str * Series).

(** [df.columns] *)
Definition columns (df : DataFrame) : list str := List.map fst df.

(** [len(df)]: the number of rows. *)
Definition len_df (df : DataFrame) : nat :=
  match df with
  | [] => 0
  | (_, s) :: _ => length (s_values s)
  end.

(** [df.empty] *)
Definition df_empty (df : DataFrame) : bool :=
  Nat.eqb (length (columns df)) 0 || Nat.eqb (len_df df) 0.

Definition notna (v : value) : bool :=
  match v with NaN => false | _ => true end.

(** [df.iloc[0].notna().sum()] *)
Definition first_row_notna (df : DataFrame) : nat :=
  length (List.filter
            (fun c : str * Series =>
               match s_values (snd c) with
               | v :: _ => notna v
               | [] => false
               end) df).

(** The test of the detection loop.  The source divides two Python ints
    as floats and compares with 0.5; for counts below 2^52 that is
    [2 * count > len(df.columns)]. *)
Definition looks_reasonable (df : DataFrame) : bool :=
  Nat.ltb 1 (length (columns df)) && Nat.ltb 0 (len_df df)
  && Nat.ltb (length (columns df)) (2 * first_row_notna df).

(** [df.fillna('')]: a column that held a missing value becomes an
    object column. *)
Definition fill_value (v : value) : value :=
  match v with NaN => Str [] | _ => v end.

Definition fillna_series (s : Series) : Series :=
  if forallb notna (s_values s) then s
  else mkSeries object (List.map fill_value (s_values s)).

Definition fillna (df : DataFrame) : DataFrame :=
  List.map (fun c : str * Series => (fst c, fillna_series (snd c))) df.

(** [str(v)] of one element. *)
Definition py_str (v : value) : str :=
  match v with
  | NaN => lit "nan"
  | Str s => s
  | Num x => str_scalar x
  end.

(** [s.astype(str)] *)
Definition astype_str (s : Series) : Series :=
  mkSeries object (List.map (fun v => Str (py_str v)) (s_values s)).

(** [s.str.strip()]: elements that are not strings become missing. *)
Definition str_strip (s : Series) : Series :=
  mkSeries object
    (List.map (fun v => match v with Str t => Str (strip t) | _ => NaN end)
              (s_values s)).

(** [s.unique()] of a Series of strings: the distinct values in order of
    first appearance. *)
Fixpoint unique_loop (seen : list str) (l : list str) : list str :=
  match l with
  | [] => []
  | x :: l' =>
      if bool_decide (x ∈ seen) then unique_loop seen l'
      else x :: unique_loop (x :: seen) l'
  end.

Definition unique (s : Series) : list str :=
  unique_loop [] (List.map py_str (s_values s)).

(** [df[col]] followed by an attribute of a Series: with one column of
    that name the Series, with several a frame, which has no such
    attribute. *)
Definition getitem (df : DataFrame) (col : str) (attr : str)
  : result Series :=
  match List.filter (fun c : str * Series => bool_decide (fst c = col)) df with
  | [(_, s)] => Ok s
  | _ => Raise (AttributeError
                  (lit "'DataFrame' object has no attribute '" ++ attr
                   ++ lit "'"))
  end.

(** [df[col] = s] *)
Definition setitem (df : DataFrame) (col : str) (s : Series) : DataFrame :=
  List.map (fun c : str * Series =>
              if bool_decide (fst c = col) then (fst c, s) else c) df.

(** [df.columns = df.columns.str.strip()] *)
Definition strip_columns (df : DataFrame) : DataFrame :=
  List.map (fun c : str * Series => (strip (fst c), snd c)) df.

(** [pd.DataFrame(data, columns=headers)] for rows of strings as long as
    the header. *)
Definition DataFrame_of_rows (data : list (list str)) (headers : list str)
  : DataFrame :=
  imap (fun j h =>
          (h, mkSeries object
                (List.map (fun row : list str => Str (nth j row [])) data)))
       headers.

(** *** [DataFrame.to_html]

    The HTML writer of pandas (1.x and 2.x), as the program calls it:
    [index=False], no row or column limit.  The writer formats with
    [display.max_colwidth] switched off, so no text is cut.  Each value
    of a column is first turned into display text, in which a tab, a
    carriage return and a line feed are shown as a backslash and a
    letter; a column name is written as it is.  Each cell is then written
    stripped, with the characters &, < and > replaced when [escape] is
    set. *)

Definition escape_control (s : str) : str :=
  flat_map (fun c => if c =? 9 then lit "\t"
                     else if c =? 13 then lit "\r"
                     else if c =? 10 then lit "\n" else [c]) s.

Definition display (v : value) : str :=
  match v with
  | NaN => lit "NaN"
  | Str s => escape_control s
  | Num x => fmt_scalar x
  end.

Definition html_escape (s : str) : str :=
  flat_map (fun c => if c =? 38 then lit "&amp;"
                     else if c =? 60 then lit "&lt;"
                     else if c =? 62 then lit "&gt;" else [c]) s.

Definition write_cell (escape : bool) (s : str) : str :=
  strip (if escape then html_escape s else s).

(** [sep.join(l)] *)
Fixpoint join (sep : str) (l : list str) : str :=
  match l with
  | [] => []
  | [x] => x
  | x :: l' => x ++ sep ++ join sep l'
  end.

(** A literal in which a backquote stands for a double quote. *)
Definition litq (s : string) : str :=
  List.map (fun c => if c =? 96 then dquote else c) (lit s).

Definition th_line (escape : bool) (col : str) : str :=
  lit "      <th>" ++ write_cell escape col ++ lit "</th>".

Definition td_line (escape : bool) (v : value) : str :=
  lit "      <td>" ++ write_cell escape (display v) ++ lit "</td>".

(** Row [i] of the frame, one value per column. *)
Definition row_values (df : DataFrame) (i : nat) : list value :=
  List.map (fun c : str * Series => nth i (s_values (snd c)) NaN) df.

Definition tr_lines (escape : bool) (df : DataFrame) (i : nat) : list str :=
  [lit "    <tr>"] ++ List.map (td_line escape) (row_values df i)
  ++ [lit "    </tr>"].

Definition to_html (df : DataFrame) (table_id classes : str)
  (escape : bool) : str :=
  join [newline]
    ([litq "<table border=`1` class=`dataframe " ++ classes
        ++ litq "` id=`" ++ table_id ++ litq "`>";
      lit "  <thead>";
      litq "    <tr style=`text-align: right;`>"]
     ++ List.map (th_line escape) (columns df)
     ++ [lit "    </tr>"; lit "  </thead>"; lit "  <tbody>"]
     ++ flat_map (tr_lines escape df) (seq 0 (len_df df))
     ++ [lit "  </tbody>"; lit "</table>"]).

(** ** The page generator: [create_enhanced_html_template] *)

(** [''.join([f'<option value=...>{val}</option>' for val in ...])] *)
Definition option_html (val : str) : str :=
  litq "<option value=`" ++ val ++ litq "`>" ++ val ++ lit "</option>".

Definition options_html (unique_values : list str) : str :=
  join [] (List.map option_html unique_values).

(** The text one iteration of the loop adds to [filter_dropdowns]. *)
Definition dropdown_html (i : nat) (col : str) (options : str) : str :=
  litq "
        <div class=`col-md-3 mb-3`>
            <label for=`filter-" ++ str_of_nat i
  ++ litq "` class=`form-label fw-bold`>" ++ col ++ litq "</label>
            <select class=`form-select filter-select` data-column=`"
  ++ str_of_nat i ++ litq "` id=`filter-" ++ str_of_nat i ++ litq "`>
                <option value=``>All</option>
                " ++ options ++ lit "
            </select>
        </div>
        ".

(** [sorted(df[col].astype(str).unique())] *)
Definition filter_values (s : Series) : list str :=
  sorted (unique (astype_str s)).

(** The loop [for i, col in enumerate(columns)]. *)
Fixpoint dropdown_loop (df : DataFrame) (i : nat) (cols : list str)
  (filter_dropdowns : str) : result str :=
  match cols with
  | [] => Ok filter_dropdowns
  | col :: rest =>
      match getitem df col (lit "unique") with
      | Raise e => Raise e
      | Ok s =>
          let unique_values := filter_values s in
          let options := options_html unique_values in
          dropdown_loop df (S i) rest
            (filter_dropdowns ++ dropdown_html i col options)
      end
  end.

(** What the loop has added after the columns [cs], the first of them
    numbered [i]. *)
Fixpoint dropdowns_from (i : nat) (cs : list (str * Series)) : str :=
  match cs with
  | [] => []
  | c :: cs' =>
      dropdown_html i (fst c) (options_html (filter_values (snd c)))
      ++ dropdowns_from (S i) cs'
  end.

(** The fixed text of the page between the interpolated fields, in the
    order of the f-string: styling and script, which the program never
    inspects. *)
Variable page_text : nat -> str.

Definition html_template (df : DataFrame) (table_id title : str)
  (filter_dropdowns table_html : str) : str :=
  page_text 0 ++ title ++ page_text 1 ++ title
  ++ page_text 2 ++ str_of_nat (len_df df)
  ++ page_text 3 ++ str_of_nat (length (columns df))
  ++ page_text 4 ++ str_of_nat (len_df df)
  ++ page_text 5 ++ filter_dropdowns
  ++ page_text 6 ++ table_html
  ++ page_text 7 ++ table_id ++ page_text 8.

Definition table_classes : str :=
  lit "table table-striped table-hover data-table".

Definition create_enhanced_html_template (df : DataFrame)
  (table_id title : str) : result str :=
  let table_html := to_html df table_id table_classes false in
  match dropdown_loop df 0 (columns df) [] with
  | Raise e => Raise e
  | Ok filter_dropdowns =>
      Ok (html_template df table_id title filter_dropdowns table_html)
  end.

(** ** Cleaning, in [create_html_from_csv] *)

(** [for col in df.columns: if df[col].dtype == 'object':
     df[col] = df[col].astype(str).str.strip()] *)
Fixpoint clean_loop (cols : list str) (df : DataFrame) : result DataFrame :=
  match cols with
  | [] => Ok df
  | col :: rest =>
      match getitem df col (lit "dtype") with
      | Raise e => Raise e
      | Ok s =>
          if bool_decide (s_dtype s = object)
          then clean_loop rest (setitem df col (str_strip (astype_str s)))
          else clean_loop rest df
      end
  end.

(** The three cleaning statements in order. *)
Definition clean (df : DataFrame) : result DataFrame :=
  let df1 := strip_columns df in
  let df2 := fillna df1 in
  clean_loop (columns df2) df2.

End Frames.

Arguments litq : simpl never.
Arguments dropdown_html : simpl never.
Arguments option_html : simpl never.
Arguments to_html : simpl never.
Arguments html_template : simpl never.
Arguments value : clear implicits.
Arguments Series : clear implicits.
Arguments DataFrame : clear implicits.


(** ** The file system, the output and the effects *)

Definition encoding_name (e : encoding) : str :=
  match e with
  | utf_8 => lit "utf-8"
  | latin_1 => lit "latin-1"
  | cp1252 => lit "cp1252"
  | iso_8859_1 => lit "iso-8859-1"
  end.

(** What the program does to the outside, in order: a line printed, a call
    of [pd.read_csv], a file opened for reading, a file written. *)
Inductive event :=
| Printed (line : str)
| ReadCsv (path : str) (enc : encoding) (sep : char)
| OpenRead (path : str)
| OpenWrite (path : str).

Record world := mkWorld {
  fs : gmap str bytes;
  trace : list event
}.

Definition log (ev : event) (w : world) : world :=
  mkWorld (fs w) (trace w ++ [ev]).

(** Computations that read and change the world and may raise. *)
Definition M (A : Type) : Type := world -> result A * world.

Definition ret {A} (a : A) : M A := fun w => (Ok a, w).

Definition raise {A} (e : exn) : M A := fun w => (Raise e, w).

Definition bind {A B} (m : M A) (k : A -> M B) : M B :=
  fun w => match m w with
           | (Ok a, w') => k a w'
           | (Raise e, w') => (Raise e, w')
           end.

(** [try: m  except Exception as e: h e] *)
Definition try_except {A} (m : M A) (h : exn -> M A) : M A :=
  fun w => match m w with
           | (Ok a, w') => (Ok a, w')
           | (Raise e, w') => h e w'
           end.

Notation "x <- m ;; k" := (bind m (fun x => k))
  (at level 100, m at next level, right associativity).
Notation "m ;;; k" := (bind m (fun _ => k))
  (at level 100, right associativity).

Definition print (line : str) : M unit := fun w => (Ok tt, log (Printed line) w).

(** The marks the messages start with, as the source file spells them. *)
Definition mark_ok : str := [226; 339; 8230].
Definition mark_open : str := [240; 376; 8220; 352].
Definition mark_error : str := [226; 338].

(** The page [create_html_from_csv] returns for an exception. *)
Definition error_html (e : exn) : str :=
  litq "
        <!DOCTYPE html>
        <html>
        <head>
            <title>Error</title>
            <style>
                body { font-family: Arial, sans-serif; margin: 40px; }
                .error { color: #d32f2f; background: #ffebee; padding: 20px; border-radius: 8px; }
            </style>
        </head>
        <body>
            <div class=`error`>
                <h2>Error processing CSV file</h2>
                <p><strong>Error:</strong> " ++ exn_str e ++ lit "</p>
            </div>
        </body>
        </html>
        ".

Arguments error_html : simpl never.

(** [ValueError(..)] with the message of [create_html_from_csv]. *)
Definition unreadable : exn :=
  ValueError (lit "Could not read CSV file or file is empty").

(** Whether UTF-8 can encode a text.  A Python string may hold lone
    surrogates (the code points D800 to DFFF, which the command line and
    file names give for bytes that do not decode); the codec refuses
    them. *)
Definition surrogate (c : char) : bool := (55296 <=? c) && (c <=? 57343).

Definition encodable (text : str) : bool := forallb (fun c => negb (surrogate c)) text.

(** The command line after [argparse]. *)
Record args := mkArgs {
  input_file : str;
  output_file : option str;
  title : option str
}.

Section Program.

Context {scalar : Type}.
Variable str_scalar : scalar -> str.
Variable fmt_scalar : scalar -> str.
Variable page_text : nat -> str.

(** [pd.read_csv(bytes, encoding=.., sep=.., skipinitialspace=True,
    quotechar=..)] on the content of a file: a frame or an exception. *)
Variable pd_read_csv : bytes -> encoding -> char -> result (DataFrame scalar).

(** What [open(.., 'r', encoding='utf-8', errors='ignore').read()] makes
    of the content of a file, and the UTF-8 encoding of a written text. *)
Variable decode_utf8_ignore : bytes -> str.
Variable encode_utf8 : str -> bytes.

(** pathlib on paths given as strings: [Path(p).suffix],
    [Path(p).with_suffix(s)], [Path(p).stem]; and [str.lower]. *)
Variable Path_suffix : str -> str.
Variable Path_with_suffix : str -> str -> str.
Variable Path_stem : str -> str.
Variable str_lower : str -> str.

(** Whether [open(path, 'w')] succeeds, and the message of the [OSError]
    it raises when it does not. *)
Variable can_write : str -> bool.
Variable strerror : str -> str.

(** The message of the [UnicodeEncodeError] for a text that cannot be
    encoded. *)
Variable encode_error : str -> str.

(** *** [repair_and_read_csv] *)

Definition encodings : list encoding := [utf_8; latin_1; cp1252; iso_8859_1].
Definition delimiters : list char := [comma; semicolon; tab; pipe].

Definition read_csv (csv_file : str) (enc : encoding) (sep : char)
  : M (DataFrame scalar) :=
  fun w =>
    let w' := log (ReadCsv csv_file enc sep) w in
    match fs w !! csv_file with
    | Some content => (pd_read_csv content enc sep, w')
    | None => (Raise (FileNotFoundError csv_file), w')
    end.

Definition open_read (path : str) : M str :=
  fun w =>
    let w' := log (OpenRead path) w in
    match fs w !! path with
    | Some content => (Ok (decode_utf8_ignore content), w')
    | None => (Raise (FileNotFoundError path), w')
    end.

(** [with open(path, 'w', encoding='utf-8') as f: f.write(text)].
    Opening creates the file or empties it; the text is encoded when it
    is written, and a text that cannot be encoded leaves the file
    empty. *)
Definition open_write (path : str) (text : str) : M unit :=
  fun w =>
    if can_write path
    then
      let opened := trace w ++ [OpenWrite path] in
      if encodable text
      then (Ok tt, mkWorld (<[path := encode_utf8 text]> (fs w)) opened)
      else (Raise (UnicodeEncodeError (encode_error text)),
            mkWorld (<[path := []]> (fs w)) opened)
    else (Raise (OSError (strerror path)), w).

(** [except (UnicodeDecodeError, pd.errors.EmptyDataError,
    pd.errors.ParserError): continue] *)
Definition skipped (e : exn) : bool :=
  match e with
  | UnicodeDecodeError _ | EmptyDataError _ | ParserError _ => true
  | _ => false
  end.

(** The line printed when an attempt is accepted. *)
Definition read_message (enc : encoding) (delimiter : char) : str :=
  mark_ok ++ lit " Successfully read CSV with encoding: "
  ++ encoding_name enc ++ lit ", delimiter: '" ++ [delimiter] ++ lit "'".

(** The inner loop, [for delimiter in delimiters]: [Some df] where the
    function returns [df], [None] where the loop runs out. *)
Fixpoint delimiter_loop (csv_file : str) (enc : encoding) (ds : list char)
  : M (option (DataFrame scalar)) :=
  match ds with
  | [] => ret None
  | delimiter :: rest =>
      fun w =>
        match read_csv csv_file enc delimiter w with
        | (Ok df, w1) =>
            if looks_reasonable df
            then (print (read_message enc delimiter) ;;; ret (Some df)) w1
            else delimiter_loop csv_file enc rest w1
        | (Raise e, w1) =>
            if skipped e then delimiter_loop csv_file enc rest w1
            else (Raise e, w1)
        end
  end.

(** The outer loop, [for encoding in encodings]. *)
Fixpoint encoding_loop (csv_file : str) (es : list encoding)
  : M (option (DataFrame scalar)) :=
  match es with
  | [] => ret None
  | enc :: rest =>
      r <- delimiter_loop csv_file enc delimiters ;;
      match r with
      | Some df => ret (Some df)
      | None => encoding_loop csv_file rest
      end
  end.

(** The second [try] block. *)
Definition manual_fallback (csv_file : str) : M (option (DataFrame scalar)) :=
  try_except
    (content <- open_read csv_file ;;
     match manual_parse content with
     | None => ret None
     | Some (delimiter, headers, data) =>
         let df := DataFrame_of_rows data headers in
         print (mark_ok
                ++ lit " Successfully parsed CSV manually with delimiter: '"
                ++ [delimiter] ++ lit "'") ;;;
         ret (Some df)
     end)
    (fun e => print (lit "Failed to read CSV file: " ++ exn_str e) ;;;
              ret None).

Definition repair_and_read_csv (csv_file : str)
  : M (option (DataFrame scalar)) :=
  r <- encoding_loop csv_file encodings ;;
  match r with
  | Some df => ret (Some df)
  | None => manual_fallback csv_file
  end.

(** *** [create_html_from_csv] *)

Definition lift {A} (r : result A) : M A := fun w => (r, w).

Definition create_html_from_csv (csv_file table_id title : str) : M str :=
  try_except
    (r <- repair_and_read_csv csv_file ;;
     match r with
     | None =>
         raise unreadable
     | Some df =>
         if df_empty df
         then raise unreadable
         else
           df' <- lift (clean str_scalar df) ;;
           lift (create_enhanced_html_template str_scalar fmt_scalar
                   page_text df' table_id title)
     end)
    (fun e => ret (error_html e)).

(** *** [convert_csv_to_html] *)

(** The body of the [try] statement. *)
Definition convert_body (input_file : str) (output_file : option str)
  (title : option str) : M (option str) :=
  fun w =>
    (if bool_decide (is_Some (fs w !! input_file))
     then
       if bool_decide (str_lower (Path_suffix input_file) = lit ".csv")
       then
         let output_file :=
           match output_file with
           | None => Path_with_suffix input_file (lit ".html")
           | Some o => o
           end in
         let title :=
           match title with
           | None => lit "Data from " ++ Path_stem input_file
           | Some t => t
           end in
         print (lit "Reading CSV file: " ++ input_file) ;;;
         html_content <-
           create_html_from_csv input_file (lit "data-table") title ;;
         print (lit "Writing HTML file: " ++ output_file) ;;;
         open_write output_file html_content ;;;
         print (mark_ok ++ lit " Successfully converted '" ++ input_file
                ++ lit "' to '" ++ output_file ++ lit "'") ;;;
         print (mark_open ++ lit " Open '" ++ output_file
                ++ lit "' in your web browser to view the interactive table") ;;;
         ret (Some output_file)
       else raise (ValueError (lit "Input file must be a CSV file"))
     else raise (FileNotFoundError
                   (lit "Input file '" ++ input_file ++ lit "' not found")))
      w.

Definition convert_csv_to_html (input_file : str) (output_file : option str)
  (title : option str) : M (option str) :=
  try_except
    (convert_body input_file output_file title)
    (fun e => print (mark_error ++ lit " Error: " ++ exn_str e) ;;;
              ret None).

(** *** [main]

    The exit status of the process, for a parsed command line.  A result
    that is [None] or an empty string is false in [if result:]. *)
Definition main (a : args) : world -> Z * world :=
  fun w =>
    match convert_csv_to_html (input_file a) (output_file a) (title a) w with
    | (Ok (Some (_ :: _)), w') => (0%Z, w')
    | (Ok _, w') => (1%Z, w')
    | (Raise e, w') =>
        (1%Z, log (Printed (mark_error ++ lit " Unexpected error: "
                          ++ exn_str e)) w')
    end.

(** *** The detection loops as one loop

    The attempts in the order the two loops make them, what the parser
    answers to one of them, and the same search written as a single loop
    over the attempts. *)
Definition attempts : list (encoding * char) :=
  flat_map (fun enc => List.map (fun d => (enc, d)) delimiters) encodings.

(** The answer of the parser to one attempt on a file content. *)
Definition answer (content : bytes) (a : encoding * char)
  : result (DataFrame scalar) :=
  pd_read_csv content (fst a) (snd a).

Definition accepted (r : result (DataFrame scalar)) : bool :=
  match r with
  | Ok df => looks_reasonable df
  | Raise _ => false
  end.

Definition rejected (r : result (DataFrame scalar)) : bool :=
  match r with
  | Ok df => negb (looks_reasonable df)
  | Raise e => skipped e
  end.

Definition read_events (csv_file : str) (l : list (encoding * char))
  : list event :=
  List.map (fun a : encoding * char => ReadCsv csv_file (fst a) (snd a)) l.

Fixpoint attempt_loop (csv_file : str) (l : list (encoding * char))
  : M (option (DataFrame scalar)) :=
  match l with
  | [] => ret None
  | (enc, delimiter) :: rest =>
      fun w =>
        match read_csv csv_file enc delimiter w with
        | (Ok df, w1) =>
            if looks_reasonable df
            then (print (read_message enc delimiter) ;;; ret (Some df)) w1
            else attempt_loop csv_file rest w1
        | (Raise e, w1) =>
            if skipped e then attempt_loop csv_file rest w1
            else (Raise e, w1)
        end
  end.

End Program.

(** ** The claims of the specification, where they differ from the code *)

(** A field normalised as the specification words it: surrounding
    whitespace and exactly one pair of surrounding double quotes go. *)
Definition spec_clean_field (f : str) : str :=
  match strip f with
  | q :: rest =>
      if (q =? dquote) && (Nat.ltb 0 (length rest))
         && bool_decide (last rest = Some dquote)
      then removelast rest
      else strip f
  | [] => []
  end.

(** [needle in haystack] on strings. *)
Fixpoint starts_with (needle haystack : str) : bool :=
  match needle, haystack with
  | [], _ => true
  | _ :: _, [] => false
  | x :: n', y :: h' => (x =? y) && starts_with n' h'
  end.

Fixpoint occurs_in (needle haystack : str) : bool :=
  starts_with needle haystack
  || match haystack with
     | [] => false
     | _ :: h' => occurs_in needle h'
     end.

(** The lines of a text as the specification counts them for the manual
    fallback: the pieces between line feeds that hold a character other
    than white space, each trimmed. *)
Definition spec_lines (content : str) : list str :=
  List.map strip
    (List.filter (fun line => negb (forallb isspace line))
                 (split newline content)).

(** A table as the specification has it: distinct column names, and as
    many cells in every column as the frame has rows. *)
Definition well_formed {scalar} (df : DataFrame scalar) : Prop :=
  NoDup (columns df)
  /\ Forall (fun c : str * Series scalar =>
               length (s_values (snd c)) = len_df df) df.

Definition trimmed (s : str) : Prop := strip s = s.

(** No value of the column is missing. *)
Definition filled {scalar} (s : Series scalar) : Prop :=
  Forall (fun v => v <> NaN) (s_values s).

(** Every value of the column is a trimmed string. *)
Definition stripped {scalar} (s : Series scalar) : Prop :=
  Forall (fun v => exists t, v = Str t /\ trimmed t) (s_values s).

(** The options of a dropdown as the specification describes them for a
    column: in increasing order of code points, no string twice, and
    exactly the strings of the values of the column. *)
Definition options_of {scalar} (str_scalar : scalar -> str)
  (s : Series scalar) (options : list str) : Prop :=
  StronglySorted str_le options
  /\ NoDup options
  /\ forall val, val ∈ options
                 <-> exists v, v ∈ s_values s /\ val = py_str str_scalar v.

(** The dropdowns of a page for given lists of options, one list for each
    column, the first column numbered [i]. *)
Fixpoint dropdown_blocks (i : nat) (cols : list str)
  (options : list (list str)) : str :=
  match cols, options with
  | col :: cols', opts :: options' =>
      dropdown_html i col (options_html opts)
      ++ dropdown_blocks (S i) cols' options'
  | _, _ => []
  end.

(** The test of the loader as the specification words it: more than one
    column, at least one row, and more than half of the cells of the
    first row present. *)
Definition present {scalar} (v : value scalar) : bool :=
  match v with NaN => false | _ => true end.

Definition passes_test {scalar} (df : DataFrame scalar) : Prop :=
  (1 < length (columns df))%nat
  /\ (0 < len_df df)%nat
  /\ (length (columns df)
      < 2 * length (List.filter present (row_values df 0)))%nat.

(** The errors of an attempt that the loader passes over, and an attempt
    it passes over: one of these errors, or a table that fails the test. *)
Definition caught (e : exn) : Prop :=
  exists msg, e = UnicodeDecodeError msg \/ e = EmptyDataError msg
              \/ e = ParserError msg.

Definition turned_down {scalar} (r : result (DataFrame scalar)) : Prop :=
  match r with
  | Ok df => ~ passes_test df
  | Raise e => caught e
  end.

(** ** An environment to run the program in

    Stand-ins for the collaborators, for evaluating the program on small
    ASCII files: integers as the only scalars, a parser without quoting or
    number inference, codecs that are the identity on ASCII, paths without
    directories, and every file writable. *)
Module Example.

Definition str_Z (z : Z) : str :=
  match z with
  | Z0 => lit "0"
  | Zpos p => str_of_nat (Pos.to_nat p)
  | Zneg p => lit "-" ++ str_of_nat (Pos.to_nat p)
  end.

Definition no_text (_ : nat) : str := [].

Definition decode (b : bytes) : str := List.map Byte.to_N b.

Definition encode (s : str) : bytes :=
  List.map (fun c => default Byte.x3f (Byte.of_N c)) s.

Definition file (s : string) : bytes := list_byte_of_string s.

(** A field that is empty is missing; every other field is text. *)
Definition field_value (f : str) : value Z :=
  match f with [] => NaN | _ => Str f end.

Definition parse (content : bytes) (enc : encoding) (sep : char)
  : result (DataFrame Z) :=
  match List.filter (fun l : str => negb (Nat.eqb (length l) 0))
                    (split newline (decode content)) with
  | [] => Raise (EmptyDataError (lit "No columns to parse from file"))
  | header :: lines =>
      Ok (imap (fun j h =>
                  (h, mkSeries object
                        (List.map (fun l => field_value (nth j (split sep l) []))
                                  lines)))
               (split sep header))
  end.

Fixpoint extension (p : str) : str :=
  match p with
  | [] => []
  | c :: p' =>
      if contains 46 p' then extension p'
      else if c =? 46 then p else []
  end.

Definition stem (p : str) : str := take (length p - length (extension p)) p.

Definition with_suffix (p suffix : str) : str := stem p ++ suffix.

Definition lower (s : str) : str :=
  List.map (fun c => if (65 <=? c) && (c <=? 90) then c + 32 else c) s.

Definition writable (_ : str) : bool := true.

(** The messages of the operating system and of the codec. *)
Definition os_message (path : str) : str :=
  lit "[Errno 13] Permission denied: '" ++ path ++ lit "'".

Definition codec_message (text : str) : str :=
  lit "'utf-8' codec can't encode characters: surrogates not allowed".

Definition data_csv : bytes := file "a;b
1;2
".

Definition notes_txt : bytes := file "a,b
1,2
".

Definition disk : gmap str bytes :=
  <[lit "data.csv" := data_csv]>
    (<[lit "empty.csv" := []]> (<[lit "notes.txt" := notes_txt]> ∅)).

Definition start : world := mkWorld disk [].

Definition run_main (a : args) : Z * world :=
  main str_Z str_Z no_text parse decode encode extension with_suffix stem
       lower writable os_message codec_message a start.

(** What [parse] makes of [data.csv] when it splits on the semicolon. *)
Definition parsed : DataFrame Z :=
  [(lit "a", mkSeries object [Str (lit "1")]);
   (lit "b", mkSeries object [Str (lit "2")])].

(** Two spellings of a quoted field, and a frame with a numeric column. *)
Definition doubly_quoted : str := litq "``x``".

Definition numbers : DataFrame Z :=
  [(lit "name", mkSeries object [Str (lit " a "); Str (lit "b")]);
   (lit "n", mkSeries int64 [Num 1%Z; Num 2%Z])].

(** A semicolon file with a comma in its header and a row that is too
    long. *)
Definition ragged : str := lit "a;b,c
 1 ; 2
x;y;z
3;4
".

Definition numbers_cleaned : DataFrame Z :=
  [(lit "name", mkSeries object [Str (lit "a"); Str (lit "b")]);
   (lit "n", mkSeries int64 [Num 1%Z; Num 2%Z])].

(** A frame with a cell of 51 characters. *)
Definition long_value : str := replicate 51 120.

Definition long_cell : DataFrame Z :=
  [(lit "a", mkSeries object [Str long_value]);
   (lit "b", mkSeries object [Str (lit "x<y&z")])].

End Example.


(** ** The script of the page

    The functions of the embedded script that compute what the page shows
    and exports, over what they read from the document: a row is the list
    of the texts of its cells ([textContent]), a dropdown is its
    [data-column] index and its selected value.  [toLowerCase] is the
    one of JavaScript strings. *)

(** The characters [String.prototype.trim] removes. *)
Definition js_whitespace (c : char) : bool :=
  ((9 <=? c) && (c <=? 13)) || (c =? 32) || (c =? 160) || (c =? 5760)
  || ((8192 <=? c) && (c <=? 8202))
  || (c =? 8232) || (c =? 8233) || (c =? 8239) || (c =? 8287)
  || (c =? 12288) || (c =? 65279).

Definition js_trim (s : str) : str := strip_by js_whitespace s.

(** A string is true in a condition when it is not empty. *)
Definition truthy (s : str) : bool := negb (Nat.eqb (length s) 0).

(** [rows.filter(row => row.cells[columnIndex].textContent.trim()
    === filterValue)]; [None] where a row reached by the filter has no
    such cell and the script throws. *)
Fixpoint filter_column (columnIndex : nat) (filterValue : str)
  (rows : list (list str)) : option (list (list str)) :=
  match rows with
  | [] => Some []
  | row :: rest =>
      match row !! columnIndex with
      | None => None
      | Some cellText =>
          match filter_column columnIndex filterValue rest with
          | None => None
          | Some kept =>
              Some (if bool_decide (js_trim cellText = filterValue)
                    then row :: kept else kept)
          end
      end
  end.

(** [filterSelects.forEach(select => { if (filterValue) rows = ... })] *)
Fixpoint select_loop (selects : list (nat * str)) (rows : list (list str))
  : option (list (list str)) :=
  match selects with
  | [] => Some rows
  | (columnIndex, filterValue) :: rest =>
      if truthy filterValue
      then match filter_column columnIndex filterValue rows with
           | None => None
           | Some rows' => select_loop rest rows'
           end
      else select_loop rest rows
  end.

(** [text.replace(/DQ/g, DQ DQ)] between two double quotes. *)
Definition csv_quote (text : str) : str :=
  [dquote]
  ++ flat_map (fun c => if c =? dquote then [dquote; dquote] else [c]) text
  ++ [dquote].

(** The text [exportToCSV] offers for download: the header texts joined
    by commas, then one line per shown row, its cells quoted. *)
Definition exportToCSV (headers : list str) (filteredRows : list (list str))
  : str :=
  join [newline]
    (join [comma] headers
     :: List.map (fun row => join [comma] (List.map csv_quote row))
                 filteredRows).

Section Script.

Variable toLowerCase : str -> str.

(** [row => Array.from(row.cells).some(cell =>
    cell.textContent.toLowerCase().includes(searchTerm))] *)
Definition matches_search (searchTerm : str) (row : list str) : bool :=
  existsb (fun cell => occurs_in searchTerm (toLowerCase cell)) row.

(** [applyFilters]: the new value of [filteredRows], from the text of the
    search box, the dropdowns in document order and [originalRows]. *)
Definition applyFilters (search_value : str) (selects : list (nat * str))
  (originalRows : list (list str)) : option (list (list str)) :=
  let searchTerm := toLowerCase search_value in
  match select_loop selects originalRows with
  | None => None
  | Some rows =>
      Some (if truthy searchTerm
            then List.filter (matches_search searchTerm) rows
            else rows)
  end.

End Script.

(** ** Notions used to state what the code does *)

(** The number of occurrences of a character in a string. *)
Definition count_char (c : char) (s : str) : nat :=
  length (List.filter (N.eqb c) s).

(** What the cleaning loop makes of one column. *)
Definition clean_column {scalar} (str_scalar : scalar -> str)
  (c : str * Series scalar) : str * Series scalar :=
  if bool_decide (s_dtype (snd c) = object)
  then (fst c, str_strip (astype_str str_scalar (snd c)))
  else c.

(** One column through the three cleaning statements. *)
Definition clean_one {scalar} (str_scalar : scalar -> str)
  (c : str * Series scalar) : str * Series scalar :=
  clean_column str_scalar (strip (fst c), fillna_series (snd c)).

(** Whether a row passes the dropdowns and the search of the page. *)
Definition passes_select (row : list str) (select : nat * str) : bool :=
  negb (truthy (snd select))
  || bool_decide (js_trim (nth (fst select) row []) = snd select).

(** Whether an event writes a file. *)
Definition is_write (ev : event) : bool :=
  match ev with
  | OpenWrite _ => true
  | _ => false
  end.

(** From [w] to [w'] no file changed and nothing was written: the trace
    grew by events that are not writes. *)
Definition reads_only (w w' : world) : Prop :=
  fs w' = fs w
  /\ exists t, trace w' = trace w ++ t
               /\ Forall (fun ev => is_write ev = false) t.

(** The message of the error raised for [df[col].dtype] when several
    columns are named [col]. *)
Definition no_dtype : exn :=
  AttributeError (lit "'DataFrame' object has no attribute '" ++ lit "dtype"
                  ++ lit "'").

(** The page of a frame after cleaning, as the generator writes it when
    the column names are distinct. *)
Definition page_of {scalar} (str_scalar fmt_scalar : scalar -> str)
  (page_text : nat -> str) (df : DataFrame scalar) (table_id title : str)
  : str :=
  html_template page_text df table_id title
    (dropdowns_from str_scalar 0 df)
    (to_html fmt_scalar df table_id table_classes false).

(** The output path and the title [convert_csv_to_html] settles on. *)
Definition output_path (Path_with_suffix : str -> str -> str) (a : args)
  : str :=
  match output_file a with
  | None => Path_with_suffix (input_file a) (lit ".html")
  | Some o => o
  end.

Definition page_title (Path_stem : str -> str) (a : args) : str :=
  match title a with
  | None => lit "Data from " ++ Path_stem (input_file a)
  | Some t => t
  end.

(** The line printed after a manual parse. *)
Definition manual_message (delimiter : char) : str :=
  mark_ok ++ lit " Successfully parsed CSV manually with delimiter: '"
  ++ [delimiter] ++ lit "'".

(** Pieces of the exported text: the line of a row, the text of the rows
    below a line, and the text after a cell (the other cells of its row,
    then the rows below). *)
Definition export_line (row : list str) : str :=
  join [comma] (List.map csv_quote row).

Definition rows_below (rows : list (list str)) : str :=
  match rows with
  | [] => []
  | _ :: _ => newline :: join [newline] (List.map export_line rows)
  end.

Definition after_cell (cells : list str) (rows : list (list str)) : str :=
  match cells with
  | [] => rows_below rows
  | _ :: _ => comma :: export_line cells ++ rows_below rows
  end.

(** More files and frames to run the program on. *)
Module More.

Definition semi_csv : bytes := Example.file "a;b
1;2;3
4;5
".

Definition locked_csv : bytes := Example.file "x,y
1,2
".

(** A parser that knows no delimiter: it returns one column. *)
Definition one_column (content : bytes) (enc : encoding) (sep : char)
  : result (DataFrame Z) :=
  Ok [(lit "line", mkSeries object [Str (Example.decode content)])].

(** A parser that fails on the tab with an error the loop does not catch. *)
Definition failing (content : bytes) (enc : encoding) (sep : char)
  : result (DataFrame Z) :=
  if sep =? tab then Raise (OSError (lit "read error"))
  else Raise (ParserError (lit "Error tokenizing data")).

Definition disk : gmap str bytes :=
  <[lit "semi.csv" := semi_csv]> (<[lit "locked.csv" := locked_csv]> ∅).

Definition start : world := mkWorld disk [].

(** Every path but [locked.html] can be written. *)
Definition writable (path : str) : bool :=
  negb (bool_decide (path = lit "locked.html"))
  && negb (Nat.eqb (length path) 0).

Definition spaced : DataFrame Z :=
  [(lit " name ", mkSeries object [Str (lit " a "); NaN]);
   (lit "n", mkSeries float64 [Num 1%Z; NaN]);
   (lit "k", mkSeries int64 [Num 1%Z; Num 2%Z])].

Definition spaced_cleaned : DataFrame Z :=
  [(lit "name", mkSeries object [Str (lit "a"); Str []]);
   (lit "n", mkSeries object [Str (lit "1"); Str []]);
   (lit "k", mkSeries int64 [Num 1%Z; Num 2%Z])].

Definition twice : DataFrame Z :=
  [(lit "a ", mkSeries object [Str (lit "x")]);
   (lit " a", mkSeries object [Str (lit "y")])].

(** A frame with a tab inside a cell. *)
Definition tab_value : str := [120; tab; 121].

Definition tabbed : DataFrame Z :=
  [(lit "a", mkSeries object [Str tab_value]);
   (lit "b", mkSeries object [Str (lit "x<y&z")])].

(** A file in which the comma leaves half of the first row empty and only
    the pipe gives two full columns. *)
Definition halves_csv : bytes := Example.file "x,y|z
,|1
".

Definition halves_start : world :=
  mkWorld (<[lit "halves.csv" := halves_csv]> ∅) [].

Definition halves : DataFrame Z :=
  [(lit "x,y", mkSeries object [Str (lit ",")]);
   (lit "z", mkSeries object [Str (lit "1")])].

(** A parser whose first attempt fails with an error the loader does not
    catch, and which reads the file on every later attempt. *)
Definition transient (content : bytes) (enc : encoding) (sep : char)
  : result (DataFrame Z) :=
  if sep =? comma then Raise (OSError (lit "[Errno 5] Input/output error"))
  else Example.parse content enc sep.

(** A header line followed by an empty line and a line of blanks. *)
Definition one_line : str := lit "a;b

   
".

Definition cells : list (list str) :=
  [[lit "ann"; lit "Paris"]; [lit "bob"; lit "Rome"]; [lit "Ann"; lit "Rome"]].

End More.

(** * Properties *)

(** ** Stripping *)

Section Stripping.

Variable p : char -> bool.

Lemma lstrip_by_split (s : str) :
  exists pre, s = pre ++ lstrip_by p s /\ Forall (fun c => p c = true) pre.
Proof.
  induction s as [|c s IH]; simpl.
  - exists []. split; [reflexivity | constructor].
  - destruct (p c) eqn:Hc.
    + destruct IH as (pre & Heq & Hall).
      exists (c :: pre). split; [simpl; congruence | by constructor].
    + exists []. split; [reflexivity | constructor].
Qed.

Lemma lstrip_by_head (s : str) (c : char) :
  head (lstrip_by p s) = Some c -> p c = false.
Proof.
  induction s as [|a s IH]; simpl; [discriminate|].
  destruct (p a) eqn:Ha; [exact IH|].
  simpl. intros [= <-]. exact Ha.
Qed.

Lemma lstrip_by_fixed (s : str) :
  (forall c, head s = Some c -> p c = false) -> lstrip_by p s = s.
Proof.
  destruct s as [|a s]; simpl; [reflexivity|].
  intros H. by rewrite (H a eq_refl).
Qed.

Lemma lstrip_by_idemp (s : str) : lstrip_by p (lstrip_by p s) = lstrip_by p s.
Proof. apply lstrip_by_fixed, lstrip_by_head. Qed.

Lemma lstrip_by_snoc (s : str) (c : char) :
  p c = false -> lstrip_by p (s ++ [c]) = lstrip_by p s ++ [c].
Proof.
  intros Hc. induction s as [|a s IH]; simpl.
  - by rewrite Hc.
  - destruct (p a); [exact IH | reflexivity].
Qed.

Lemma rstrip_by_cons (s : str) (c : char) :
  p c = false -> rstrip_by p (c :: s) = c :: rstrip_by p s.
Proof.
  intros Hc. unfold rstrip_by. simpl.
  rewrite lstrip_by_snoc by exact Hc.
  by rewrite rev_app_distr.
Qed.

Lemma rstrip_by_split (s : str) :
  exists post, s = rstrip_by p s ++ post /\ Forall (fun c => p c = true) post.
Proof.
  unfold rstrip_by.
  destruct (lstrip_by_split (rev s)) as (pre & Heq & Hall).
  exists (rev pre). split.
  - rewrite <- rev_app_distr, <- Heq. by rewrite rev_involutive.
  - apply Forall_forall. intros c Hc.
    rewrite Forall_forall in Hall. apply Hall.
    apply list_elem_of_In. apply list_elem_of_In in Hc.
    by apply in_rev.
Qed.

Lemma rstrip_by_last (s : str) (c : char) :
  last (rstrip_by p s) = Some c -> p c = false.
Proof.
  unfold rstrip_by.
  destruct (lstrip_by p (rev s)) as [|a t] eqn:Ht; [discriminate|].
  simpl. rewrite last_snoc. intros [= <-].
  apply (lstrip_by_head (rev s)). by rewrite Ht.
Qed.

Lemma rstrip_by_idemp (s : str) : rstrip_by p (rstrip_by p s) = rstrip_by p s.
Proof.
  unfold rstrip_by. by rewrite rev_involutive, lstrip_by_idemp.
Qed.

(** What [strip] leaves neither starts nor ends with a stripped
    character. *)
Lemma strip_by_head (s : str) (c : char) :
  head (strip_by p s) = Some c -> p c = false.
Proof.
  unfold strip_by.
  destruct (lstrip_by p s) as [|a t] eqn:Ht; [discriminate|].
  assert (Ha : p a = false) by (apply (lstrip_by_head s); by rewrite Ht).
  rewrite rstrip_by_cons by exact Ha. simpl. by intros [= <-].
Qed.

Lemma strip_by_last (s : str) (c : char) :
  last (strip_by p s) = Some c -> p c = false.
Proof. apply rstrip_by_last. Qed.

Lemma strip_by_split (s : str) :
  exists pre post,
    s = pre ++ strip_by p s ++ post
    /\ Forall (fun c => p c = true) pre /\ Forall (fun c => p c = true) post.
Proof.
  destruct (lstrip_by_split s) as (pre & Hpre & Hall1).
  destruct (rstrip_by_split (lstrip_by p s)) as (post & Hpost & Hall2).
  exists pre, post. unfold strip_by. split; [|done].
  rewrite <- Hpost. exact Hpre.
Qed.

Lemma strip_by_idemp (s : str) : strip_by p (strip_by p s) = strip_by p s.
Proof.
  unfold strip_by at 1.
  rewrite (lstrip_by_fixed (strip_by p s)) by apply strip_by_head.
  unfold strip_by. apply rstrip_by_idemp.
Qed.

End Stripping.

Lemma strip_idemp (s : str) : strip (strip s) = strip s.
Proof. apply strip_by_idemp. Qed.

(** ** The manual fallback parser *)

Lemma in_quote_set (c : char) :
  existsb (N.eqb c) [dquote] = true <-> c = dquote.
Proof.
  simpl. rewrite orb_false_r. apply N.eqb_eq.
Qed.

Lemma collect_rows_filter (delimiter : char) (headers : list str)
  (lines : list str) (data : list (list str)) :
  collect_rows delimiter headers lines data
  = data ++ List.filter (fun row => Nat.eqb (length row) (length headers))
                        (List.map (split_fields delimiter) lines).
Proof.
  revert data. induction lines as [|line rest IH]; intros data; simpl.
  - by rewrite app_nil_r.
  - destruct (Nat.eqb (length (split_fields delimiter line)) (length headers)).
    + rewrite IH. by rewrite <- app_assoc.
    + apply IH.
Qed.

Lemma manual_parse_lines (content first_line : str) (rest : list str) :
  nonempty_lines content = first_line :: rest ->
  manual_parse content
  = match rest with
    | [] => None
    | _ :: _ =>
        let delimiter := detect_delimiter first_line in
        let headers := split_fields delimiter first_line in
        match collect_rows delimiter headers rest [] with
        | [] => None
        | row :: rows => Some (delimiter, headers, row :: rows)
        end
    end.
Proof.
  intros Hl. unfold manual_parse. rewrite Hl.
  destruct rest as [|l rest]; [reflexivity|].
  cbn [length Nat.ltb Nat.leb]. cbv zeta.
  by destruct (collect_rows _ _ _ _).
Qed.

(** C4, as the specification words it, fails: of a field written with two
    pairs of double quotes around x, the parser keeps x alone, where
    removing one pair would keep x in quotes. *)
Lemma clean_field_drops_inner_quotes :
  clean_field Example.doubly_quoted = lit "x"
  /\ spec_clean_field Example.doubly_quoted = litq "`x`"
  /\ clean_field Example.doubly_quoted
     <> spec_clean_field Example.doubly_quoted.
Proof. repeat split; vm_compute; congruence. Qed.

(** C4 (amended): a field is normalized by removing the surrounding
    whitespace and then every leading and every trailing double quote,
    however many there are and whether or not they pair up; what is left
    neither starts nor ends with a double quote. *)
Theorem clean_field_strips_every_quote (f : str) :
  exists ws1 q1 q2 ws2,
    f = ws1 ++ q1 ++ clean_field f ++ q2 ++ ws2
    /\ strip f = q1 ++ clean_field f ++ q2
    /\ Forall (fun c => isspace c = true) ws1
    /\ Forall (fun c => isspace c = true) ws2
    /\ Forall (fun c => c = dquote) q1
    /\ Forall (fun c => c = dquote) q2
    /\ (forall c, head (strip f) = Some c -> isspace c = false)
    /\ (forall c, last (strip f) = Some c -> isspace c = false)
    /\ head (clean_field f) <> Some dquote
    /\ last (clean_field f) <> Some dquote.
Proof.
  destruct (strip_by_split isspace f) as (ws1 & ws2 & Hf & Hws1 & Hws2).
  destruct (strip_by_split (fun c => existsb (N.eqb c) [dquote]) (strip f))
    as (q1 & q2 & Hs & Hq1 & Hq2).
  fold (strip f) in Hf. fold (strip_chars [dquote] (strip f)) in Hs.
  fold (clean_field f) in Hs.
  exists ws1, q1, q2, ws2. repeat split.
  - rewrite Hf at 1. rewrite Hs at 1. by rewrite <- !app_assoc.
  - exact Hs.
  - exact Hws1.
  - exact Hws2.
  - eapply Forall_impl; [exact Hq1|]. intros c. apply in_quote_set.
  - eapply Forall_impl; [exact Hq2|]. intros c. apply in_quote_set.
  - apply strip_by_head.
  - apply strip_by_last.
  - intros H. apply strip_by_head in H. discriminate H.
  - intros H. apply strip_by_last in H. discriminate H.
Qed.

(** C10: the manual fallback takes as delimiter the first of semicolon,
    tab, pipe and comma that occurs in the first line, and comma when none
    does; so a first line holding both a comma and a semicolon is split,
    like every later line, on the semicolon. *)
Theorem detect_delimiter_first_present (content first_line : str)
  (rest : list str) :
  nonempty_lines content = first_line :: rest ->
  detect_delimiter first_line
  = default comma (List.find (fun d => contains d first_line)
                             [semicolon; tab; pipe; comma])
  /\ (contains comma first_line = true ->
      contains semicolon first_line = true ->
      detect_delimiter first_line = semicolon
      /\ manual_parse content
         = match rest with
           | [] => None
           | _ :: _ =>
               match List.filter
                       (fun row =>
                          Nat.eqb (length row)
                            (length (split_fields semicolon first_line)))
                       (List.map (split_fields semicolon) rest) with
               | [] => None
               | row :: rows =>
                   Some (semicolon, split_fields semicolon first_line,
                         row :: rows)
               end
           end).
Proof.
  intros Hl. split.
  - unfold detect_delimiter, manual_candidates. simpl.
    repeat match goal with |- context [contains ?d first_line] =>
      destruct (contains d first_line); try reflexivity end.
  - intros _ Hsemi.
    assert (Hd : detect_delimiter first_line = semicolon).
    { unfold detect_delimiter, manual_candidates. simpl. by rewrite Hsemi. }
    split; [exact Hd|].
    rewrite (manual_parse_lines _ _ _ Hl). simpl. rewrite Hd.
    destruct rest as [|l rest']; [reflexivity|].
    by rewrite collect_rows_filter.
Qed.

Lemma detect_delimiter_first_present_witness :
  detect_delimiter (lit "a;b,c") = semicolon
  /\ manual_parse Example.ragged
     = Some (semicolon, [lit "a"; lit "b,c"],
             [[lit "1"; lit "2"]; [lit "3"; lit "4"]]).
Proof.
  exact (proj2 (detect_delimiter_first_present Example.ragged (lit "a;b,c")
                  [lit "1 ; 2"; lit "x;y;z"; lit "3;4"] eq_refl)
               eq_refl eq_refl).
Defined.

Lemma lstrip_by_all (p : char -> bool) (s : str) :
  forallb p s = true -> lstrip_by p s = [].
Proof.
  induction s as [|c s IH]; [reflexivity|]. cbn [forallb lstrip_by].
  intros H. apply andb_true_iff in H. destruct H as [Hc Hs].
  rewrite Hc. by apply IH.
Qed.

(** A line strips to nothing exactly when all its characters are white
    space. *)
Lemma strip_empty_iff (line : str) :
  Nat.eqb (length (strip line)) 0 = forallb isspace line.
Proof.
  destruct (forallb isspace line) eqn:Hall.
  - unfold strip, strip_by. rewrite (lstrip_by_all _ _ Hall). reflexivity.
  - destruct (strip line) as [|c t] eqn:Hs; [|reflexivity].
    destruct (strip_by_split isspace line) as (pre & post & Hl & Hpre & Hpost).
    fold (strip line) in Hl. rewrite Hs in Hl. cbn [app] in Hl.
    assert (Hforall : forallb isspace line = true).
    { rewrite Hl. apply forallb_forall. intros ch Hch.
      apply in_app_or in Hch. rewrite Forall_forall in Hpre, Hpost.
      destruct Hch as [Hch|Hch]; [apply Hpre | apply Hpost];
        by apply list_elem_of_In. }
    congruence.
Qed.

Lemma nonempty_lines_spec (content : str) :
  nonempty_lines content = spec_lines content.
Proof.
  unfold nonempty_lines, spec_lines. f_equal.
  apply List.filter_ext. intros line. by rewrite strip_empty_iff.
Qed.

(** C3: the manual fallback works on the lines of the file that hold a
    character other than white space, each trimmed.  With fewer than two
    of them it fails.  Otherwise, with the first line split into N header
    fields, the rows kept are exactly the later lines that split into N
    cells, each as it was split (nothing padded or cut) and in the order
    of the input; it fails when no row is kept. *)
Theorem manual_fallback_keeps_rows_of_header_width (content : str) :
  ((length (spec_lines content) < 2)%nat -> manual_parse content = None)
  /\ forall first_line rest,
       spec_lines content = first_line :: rest -> rest <> [] ->
       let delimiter := detect_delimiter first_line in
       let headers := split_fields delimiter first_line in
       let kept :=
         List.filter (fun row => Nat.eqb (length row) (length headers))
                     (List.map (split_fields delimiter) rest) in
       manual_parse content
       = match kept with
         | [] => None
         | _ :: _ => Some (delimiter, headers, kept)
         end.
Proof.
  rewrite <- nonempty_lines_spec. split.
  - intros Hlt. unfold manual_parse.
    destruct (Nat.ltb_spec (length (nonempty_lines content)) 2) as [_|Hge];
      [reflexivity | lia].
  - intros first_line rest Hl Hne. cbv zeta.
    rewrite (manual_parse_lines _ _ _ Hl).
    destruct rest as [|l rest']; [done|].
    cbv zeta. rewrite collect_rows_filter, app_nil_l.
    by destruct (List.filter _ _).
Qed.

Lemma manual_fallback_keeps_rows_witness :
  spec_lines More.one_line = [lit "a;b"]
  /\ manual_parse More.one_line = None
  /\ manual_parse Example.ragged
     = Some (semicolon, [lit "a"; lit "b,c"],
             [[lit "1"; lit "2"]; [lit "3"; lit "4"]]).
Proof.
  split; [reflexivity|]. split.
  - refine (proj1 (manual_fallback_keeps_rows_of_header_width More.one_line)
                  _).
    vm_compute. lia.
  - exact (proj2 (manual_fallback_keeps_rows_of_header_width Example.ragged)
                 (lit "a;b,c") [lit "1 ; 2"; lit "x;y;z"; lit "3;4"]
                 eq_refl ltac:(discriminate)).
Defined.

(** ** Cleaning *)

Section Cleaning.

Context {scalar : Type}.
Variable str_scalar : scalar -> str.

Implicit Types (df : DataFrame scalar) (s : Series scalar)
  (c : str * Series scalar) (v : value scalar).

Lemma fillna_series_filled s : filled (fillna_series s).
Proof.
  unfold fillna_series, filled.
  destruct (forallb notna (s_values s)) eqn:Hall.
  - apply Forall_forall. intros v Hv ->.
    apply list_elem_of_In in Hv.
    by apply (proj1 (forallb_forall _ _) Hall) in Hv.
  - simpl. apply Forall_forall. intros v Hv.
    apply list_elem_of_In, in_map_iff in Hv.
    destruct Hv as (v0 & <- & _). by destruct v0.
Qed.

Lemma fillna_series_numeric s :
  s_dtype (fillna_series s) <> object -> fillna_series s = s.
Proof.
  unfold fillna_series. destruct (forallb notna (s_values s)); [done|].
  simpl. congruence.
Qed.

Lemma str_strip_astype_stripped s :
  stripped (str_strip (astype_str str_scalar s))
  /\ filled (str_strip (astype_str str_scalar s)).
Proof.
  unfold stripped, filled. simpl. rewrite List.map_map.
  split; apply Forall_forall; intros v Hv;
    apply list_elem_of_In, in_map_iff in Hv; destruct Hv as (v0 & <- & _).
  - eexists. split; [reflexivity | apply strip_idemp].
  - discriminate.
Qed.

Lemma getitem_only df col attr s c :
  getitem df col attr = Ok s -> c ∈ df -> fst c = col -> snd c = s.
Proof.
  unfold getitem. intros Hg Hc Hn.
  assert (Hin : In c (List.filter (fun c => bool_decide (fst c = col)) df)).
  { apply filter_In. split; [by apply list_elem_of_In|].
    by apply bool_decide_eq_true. }
  destruct (List.filter _ df) as [|[n s0] [|]]; try discriminate.
  injection Hg as <-. destruct Hin as [<-|[]]. reflexivity.
Qed.

Lemma columns_setitem df col s : columns (setitem df col s) = columns df.
Proof.
  unfold columns, setitem. rewrite List.map_map.
  apply List.map_ext. intros c. by destruct (bool_decide _).
Qed.

Lemma elem_of_setitem df col s c :
  c ∈ setitem df col s ->
  (c = (col, s)) \/ (c ∈ df /\ fst c <> col).
Proof.
  unfold setitem. intros Hc.
  apply list_elem_of_In, in_map_iff in Hc.
  destruct Hc as (c0 & <- & Hc0). apply list_elem_of_In in Hc0.
  destruct (bool_decide (fst c0 = col)) eqn:Hd.
  - apply bool_decide_eq_true in Hd. left. by rewrite Hd.
  - apply bool_decide_eq_false in Hd. by right.
Qed.

(** The loop: the columns it has visited are cleaned, no column loses a
    value, the names stay, and a column that is not of object type at
    the end was never touched. *)
Lemma clean_loop_spec cols : forall df df' (done : list str),
  clean_loop str_scalar cols df = Ok df' ->
  (forall c, c ∈ df -> filled (snd c)) ->
  (forall c, c ∈ df -> fst c ∈ done ->
             s_dtype (snd c) = object -> stripped (snd c)) ->
  columns df' = columns df
  /\ (forall c, c ∈ df' -> filled (snd c))
  /\ (forall c, c ∈ df' -> fst c ∈ done ++ cols ->
                s_dtype (snd c) = object -> stripped (snd c))
  /\ (forall c, c ∈ df' -> s_dtype (snd c) <> object -> c ∈ df).
Proof.
  induction cols as [|col rest IH]; intros df df' done Hrun Hfill Hdone.
  - simpl in Hrun. injection Hrun as <-. rewrite app_nil_r. done.
  - simpl in Hrun.
    destruct (getitem df col (lit "dtype")) as [s|e] eqn:Hget;
      [|discriminate].
    destruct (bool_decide (s_dtype s = object)) eqn:Hobj.
    + destruct (str_strip_astype_stripped s) as [Hst Hfl].
      specialize (IH _ _ (done ++ [col]) Hrun).
      destruct IH as (Hcols & Hf & Hs & Hn).
      * intros c Hc. apply elem_of_setitem in Hc.
        destruct Hc as [->|[Hc _]]; [exact Hfl | by apply Hfill].
      * intros c Hc Hin Hdt. apply elem_of_setitem in Hc.
        destruct Hc as [->|[Hc Hne]]; [exact Hst|].
        apply Hdone; [done| |done].
        apply elem_of_app in Hin. destruct Hin as [Hin|Hin]; [done|].
        apply list_elem_of_singleton in Hin. done.
      * rewrite columns_setitem in Hcols. repeat split; try done.
        -- intros c Hc Hin. apply Hs; [done|].
           rewrite <- app_assoc. exact Hin.
        -- intros c Hc Hdt. specialize (Hn c Hc Hdt).
           apply elem_of_setitem in Hn.
           destruct Hn as [->|[Hn _]]; [done | exact Hn].
    + apply bool_decide_eq_false in Hobj.
      specialize (IH _ _ (done ++ [col]) Hrun Hfill).
      destruct IH as (Hcols & Hf & Hs & Hn).
      * intros c Hc Hin Hdt.
        apply elem_of_app in Hin. destruct Hin as [Hin|Hin];
          [by apply Hdone|].
        apply list_elem_of_singleton in Hin.
        rewrite (getitem_only _ _ _ _ _ Hget Hc Hin) in Hdt. done.
      * repeat split; try done.
        intros c Hc Hin. apply Hs; [done|].
        rewrite <- app_assoc. exact Hin.
Qed.

(** What the three statements establish together. *)
Lemma clean_columns_spec df df' :
  clean str_scalar df = Ok df' ->
  columns df' = List.map strip (columns df)
  /\ Forall trimmed (columns df')
  /\ Forall (fun c => filled (snd c)
                      /\ (s_dtype (snd c) = object -> stripped (snd c))) df'
  /\ Forall (fun c => s_dtype (snd c) <> object ->
                      exists c0, c0 ∈ df /\ fst c = strip (fst c0)
                                 /\ snd c = snd c0) df'.
Proof.
  unfold clean. intros Hrun.
  apply (clean_loop_spec _ _ _ []) in Hrun.
  - destruct Hrun as (Hcols & Hf & Hs & Hn).
    assert (Hnames : columns df' = List.map strip (columns df)).
    { rewrite Hcols. unfold columns, fillna, strip_columns.
      by rewrite !List.map_map. }
    split; [exact Hnames|]. split; [|split].
    + rewrite Hnames. apply Forall_forall. intros n Hn'.
      apply list_elem_of_In, in_map_iff in Hn'.
      destruct Hn' as (n0 & <- & _). apply strip_idemp.
    + apply Forall_forall. intros c Hc. split; [by apply Hf|].
      apply Hs; [done|]. simpl. rewrite <- Hcols.
      apply list_elem_of_In, in_map_iff. exists c.
      split; [done | by apply list_elem_of_In].
    + apply Forall_forall. intros c Hc Hdt.
      specialize (Hn c Hc Hdt).
      unfold fillna, strip_columns in Hn. rewrite List.map_map in Hn.
      apply list_elem_of_In, in_map_iff in Hn.
      destruct Hn as (c0 & <- & Hc0). simpl in *.
      exists c0. split; [by apply list_elem_of_In|].
      split; [done | by apply fillna_series_numeric].
  - intros c Hc. unfold fillna in Hc.
    apply list_elem_of_In, in_map_iff in Hc.
    destruct Hc as (c0 & <- & _). apply fillna_series_filled.
  - intros c _ Hin. by apply elem_of_nil in Hin.
Qed.

End Cleaning.

(** C6, as stated, fails: a column that parsed as integers keeps its
    integers, which are not strings. *)
Lemma clean_keeps_numbers :
  exists df' c v,
    clean Example.str_Z Example.numbers = Ok df'
    /\ c ∈ df' /\ v ∈ s_values (snd c)
    /\ ~ (exists t, v = Str t /\ trimmed t).
Proof.
  exists Example.numbers_cleaned,
         (lit "n", mkSeries int64 [Num 1%Z; Num 2%Z]), (Num 1%Z).
  split; [reflexivity|]. split; [|split].
  - apply list_elem_of_In. right. by left.
  - apply list_elem_of_In. by left.
  - intros (t & Ht & _). discriminate.
Qed.

(** ** The order of [sorted] *)

Ltac order_cases :=
  repeat match goal with
    | H : context [N.ltb ?u ?v] |- _ => destruct (N.ltb_spec u v)
    | |- context [N.ltb ?u ?v] => destruct (N.ltb_spec u v)
    | H : context [N.eqb ?u ?v] |- _ => destruct (N.eqb_spec u v)
    | |- context [N.eqb ?u ?v] => destruct (N.eqb_spec u v)
    end.

Lemma str_leb_total (a b : str) : str_leb a b = true \/ str_leb b a = true.
Proof.
  revert b. induction a as [|x a IH]; intros [|y b]; simpl; auto.
  order_cases; subst; auto; lia.
Qed.

Lemma str_leb_trans (a b c : str) :
  str_leb a b = true -> str_leb b c = true -> str_leb a c = true.
Proof.
  revert b c. induction a as [|x a IH]; intros [|y b] [|z c]; simpl; auto;
    try discriminate.
  intros H1 H2. order_cases; subst; try discriminate; try lia; eauto.
Qed.

Lemma str_leb_antisym (a b : str) :
  str_leb a b = true -> str_leb b a = true -> a = b.
Proof.
  revert b. induction a as [|x a IH]; intros [|y b]; simpl; auto;
    try discriminate.
  intros H1 H2. order_cases; subst; try discriminate; try lia.
  f_equal. by apply IH.
Qed.

#[global] Instance str_le_total : Total str_le.
Proof. intros a b. apply str_leb_total. Qed.

#[global] Instance str_le_trans : Transitive str_le.
Proof. intros a b c. apply str_leb_trans. Qed.

#[global] Instance str_le_antisym : AntiSymm (=) str_le.
Proof. intros a b. apply str_leb_antisym. Qed.

Lemma digits_inj (u u' : Decimal.uint) : digits u = digits u' -> u = u'.
Proof.
  revert u'. induction u; intros []; simpl; intros H;
    try discriminate; try reflexivity;
    injection H as H; f_equal; by apply IHu.
Qed.

Lemma str_of_nat_inj (i j : nat) : str_of_nat i = str_of_nat j -> i = j.
Proof.
  unfold str_of_nat. intros H.
  by apply DecimalNat.Unsigned.to_uint_inj, digits_inj.
Qed.

(** ** The page generator *)

Lemma unique_loop_spec (l seen : list str) :
  NoDup (unique_loop seen l)
  /\ forall x, x ∈ unique_loop seen l <-> x ∈ l /\ x ∉ seen.
Proof.
  revert seen. induction l as [|a l IH]; intros seen; simpl.
  - split; [constructor|]. intros x. split.
    + intros H. by apply elem_of_nil in H.
    + intros [H _]. by apply elem_of_nil in H.
  - destruct (bool_decide (a ∈ seen)) eqn:Ha.
    + apply bool_decide_eq_true in Ha.
      destruct (IH seen) as [Hnd Hin]. split; [exact Hnd|].
      intros x. rewrite Hin, elem_of_cons. split; [tauto|].
      intros [[->|Hx] Hs]; [done | tauto].
    + apply bool_decide_eq_false in Ha.
      destruct (IH (a :: seen)) as [Hnd Hin]. split.
      * constructor; [|exact Hnd]. rewrite Hin, elem_of_cons.
        intros [_ H]. apply H. by left.
      * intros x. rewrite !elem_of_cons, Hin, elem_of_cons.
        destruct (decide (x = a)) as [->|Hne]; [|tauto].
        split; [intros _; split; [by left | done] | intros _; by left].
Qed.

Section Rendering.

Context {scalar : Type}.
Variable str_scalar : scalar -> str.
Variable fmt_scalar : scalar -> str.
Variable page_text : nat -> str.

Implicit Types (df : DataFrame scalar) (s : Series scalar)
  (c : str * Series scalar) (v : value scalar).

Lemma unique_spec s :
  NoDup (unique str_scalar s)
  /\ forall x, x ∈ unique str_scalar s
               <-> exists v, v ∈ s_values s /\ x = py_str str_scalar v.
Proof.
  unfold unique.
  destruct (unique_loop_spec (List.map (py_str str_scalar) (s_values s)) [])
    as [Hnd Hin].
  split; [exact Hnd|]. intros x. rewrite Hin. split.
  - intros [Hx _]. apply list_elem_of_In, in_map_iff in Hx.
    destruct Hx as (v & <- & Hv). exists v.
    split; [by apply list_elem_of_In | reflexivity].
  - intros (v & Hv & ->). split; [|apply not_elem_of_nil].
    apply list_elem_of_In, in_map_iff. exists v.
    split; [reflexivity | by apply list_elem_of_In].
Qed.

(** The options of a dropdown: sorted, without repetition, and exactly
    the strings of the values of the column. *)
Lemma filter_values_spec s :
  StronglySorted str_le (filter_values str_scalar s)
  /\ NoDup (filter_values str_scalar s)
  /\ forall x, x ∈ filter_values str_scalar s
               <-> exists v, v ∈ s_values s /\ x = py_str str_scalar v.
Proof.
  unfold filter_values, sorted.
  assert (Hobj : unique str_scalar (astype_str str_scalar s)
                 = unique str_scalar s).
  { unfold unique, astype_str. simpl. by rewrite List.map_map. }
  rewrite Hobj. destruct (unique_spec s) as [Hnd Hin].
  split; [apply StronglySorted_merge_sort; apply _|]. split.
  - by rewrite merge_sort_Permutation.
  - intros x. rewrite merge_sort_Permutation. apply Hin.
Qed.

(** The options depend on the values of the column only, not on the
    order of the rows. *)
Lemma filter_values_order_independent s1 s2 :
  s_values s1 ≡ₚ s_values s2 ->
  filter_values str_scalar s1 = filter_values str_scalar s2.
Proof.
  intros Hperm.
  destruct (filter_values_spec s1) as (Hs1 & Hn1 & Hi1).
  destruct (filter_values_spec s2) as (Hs2 & Hn2 & Hi2).
  apply (StronglySorted_unique str_le); [done | done |].
  apply NoDup_Permutation; [done | done |].
  intros x. rewrite Hi1, Hi2.
  split; intros (v & Hv & ->); exists v; split; try done.
  - by rewrite <- Hperm.
  - by rewrite Hperm.
Qed.

Lemma filter_no_name df col :
  col ∉ columns df ->
  List.filter (fun c => bool_decide (fst c = col)) df = [].
Proof.
  induction df as [|c0 df IH]; [reflexivity|].
  unfold columns. simpl. rewrite not_elem_of_cons. intros [Hne Hnin].
  rewrite bool_decide_eq_false_2 by congruence. by apply IH.
Qed.

(** With distinct column names, [df[col]] is the column of that name. *)
Lemma getitem_unique_name df col s attr :
  NoDup (columns df) -> (col, s) ∈ df -> getitem df col attr = Ok s.
Proof.
  intros Hnd Hin. unfold getitem.
  assert (Hf : List.filter (fun c => bool_decide (fst c = col)) df
               = [(col, s)]).
  { induction df as [|c0 df IH]; [by apply elem_of_nil in Hin|].
    unfold columns in Hnd. simpl in Hnd. apply NoDup_cons in Hnd.
    destruct Hnd as [Hfresh Hnd]. simpl.
    apply elem_of_cons in Hin. destruct Hin as [<-|Hin].
    - simpl. rewrite bool_decide_eq_true_2 by reflexivity. f_equal.
      by apply filter_no_name.
    - rewrite bool_decide_eq_false_2; [by apply IH|].
      intros Heq. apply Hfresh. rewrite Heq.
      apply list_elem_of_In, in_map_iff. exists (col, s).
      split; [reflexivity | by apply list_elem_of_In]. }
  by rewrite Hf.
Qed.

Lemma dropdown_loop_run df : NoDup (columns df) ->
  forall cs i acc, (forall c, c ∈ cs -> c ∈ df) ->
  dropdown_loop str_scalar df i (columns cs) acc
  = Ok (acc ++ dropdowns_from str_scalar i cs).
Proof.
  intros Hnd. induction cs as [|[col s] cs IH]; intros i acc Hsub;
    cbn [dropdown_loop dropdowns_from columns List.map fst snd].
  - by rewrite app_nil_r.
  - rewrite (getitem_unique_name df col s) by
      (try done; apply Hsub; by left).
    fold (columns cs). rewrite IH.
    + by rewrite <- app_assoc.
    + intros c Hc. apply Hsub. by right.
Qed.

(** The page of a frame with distinct column names. *)
Lemma create_enhanced_html_template_run df table_id title :
  NoDup (columns df) ->
  create_enhanced_html_template str_scalar fmt_scalar page_text
    df table_id title
  = Ok (html_template page_text df table_id title
          (dropdowns_from str_scalar 0 df)
          (to_html fmt_scalar df table_id table_classes false)).
Proof.
  intros Hnd. unfold create_enhanced_html_template.
  by rewrite (dropdown_loop_run df Hnd df 0 []).
Qed.

Lemma dropdowns_from_app i (cs1 cs2 : list (str * Series scalar)) :
  dropdowns_from str_scalar i (cs1 ++ cs2)
  = dropdowns_from str_scalar i cs1
    ++ dropdowns_from str_scalar (i + length cs1) cs2.
Proof.
  revert i. induction cs1 as [|c cs1 IH]; intros i;
    cbn [dropdowns_from app length].
  - by rewrite Nat.add_0_r.
  - rewrite IH, <- app_assoc. by rewrite Nat.add_succ_r.
Qed.

(** Options that meet the description of the specification are the
    options the code computes. *)
Lemma options_of_unique s options :
  options_of str_scalar s options -> options = filter_values str_scalar s.
Proof.
  intros (Hsorted & Hnd & Hin).
  destruct (filter_values_spec s) as (Hsorted' & Hnd' & Hin').
  apply (StronglySorted_unique str_le); [done | done |].
  apply NoDup_Permutation; [done | done |].
  intros x. by rewrite Hin, Hin'.
Qed.

Lemma dropdown_blocks_spec df : forall i options,
  Forall2 (fun c opts => options_of str_scalar (snd c) opts) df options ->
  dropdown_blocks i (columns df) options = dropdowns_from str_scalar i df.
Proof.
  induction df as [|c df IH]; intros i options Hall.
  - by apply Forall2_nil_inv_l in Hall as ->.
  - apply Forall2_cons_inv_l in Hall.
    destruct Hall as (opts & options' & Hopts & Hall & ->).
    cbn [columns List.map dropdown_blocks dropdowns_from].
    fold (columns df). rewrite (IH _ _ Hall).
    by rewrite (options_of_unique _ _ Hopts).
Qed.

(** C7: for a table with distinct column names (as every well-formed
    table has) and a title, the generator returns a page, and any two
    runs return that same page.  The page is fixed by the table and the
    title alone: it is the fixed text of the template around the title,
    the counts, the dropdowns and the table markup, and whatever lists of
    options meet the description of the specification (sorted, without
    repetition, the strings of the values of the column), the dropdowns
    built from them are the ones of the page; such lists exist. *)
Theorem render_deterministic df table_id title :
  NoDup (columns df) ->
  exists html,
    (forall run1 run2,
       run1 = create_enhanced_html_template str_scalar fmt_scalar
                page_text df table_id title ->
       run2 = create_enhanced_html_template str_scalar fmt_scalar
                page_text df table_id title ->
       run1 = Ok html /\ run2 = Ok html)
    /\ (exists options,
          Forall2 (fun c opts => options_of str_scalar (snd c) opts)
                  df options)
    /\ forall options,
         Forall2 (fun c opts => options_of str_scalar (snd c) opts)
                 df options ->
         html = page_text 0 ++ title ++ page_text 1 ++ title
                ++ page_text 2 ++ str_of_nat (len_df df)
                ++ page_text 3 ++ str_of_nat (length (columns df))
                ++ page_text 4 ++ str_of_nat (len_df df)
                ++ page_text 5 ++ dropdown_blocks 0 (columns df) options
                ++ page_text 6
                ++ to_html fmt_scalar df table_id table_classes false
                ++ page_text 7 ++ table_id ++ page_text 8.
Proof.
  intros Hnd. eexists. split; [|split].
  - intros run1 run2 -> ->.
    by rewrite create_enhanced_html_template_run.
  - exists (List.map (fun c => filter_values str_scalar (snd c)) df).
    clear Hnd. induction df as [|c df' IH]; constructor; [|exact IH].
    apply filter_values_spec.
  - intros options Hall. unfold html_template.
    by rewrite (dropdown_blocks_spec df 0 options Hall).
Qed.

(** C8: the page returned for a well-formed table holds, among its
    dropdowns, the dropdown of column i: it carries the index i in its id
    and its data-column attribute, starts with the one empty option All,
    and then lists exactly the distinct strings of the values of that
    column, in the lexicographic order of their code points. *)
Theorem filter_dropdown_options df table_id title i col s :
  well_formed df -> df !! i = Some (col, s) ->
  let options := filter_values str_scalar s in
  (exists before after,
      create_enhanced_html_template str_scalar fmt_scalar page_text
        df table_id title
      = Ok (page_text 0 ++ title ++ page_text 1 ++ title
            ++ page_text 2 ++ str_of_nat (len_df df)
            ++ page_text 3 ++ str_of_nat (length (columns df))
            ++ page_text 4 ++ str_of_nat (len_df df)
            ++ page_text 5
            ++ (before ++ dropdown_html i col (options_html options)
                ++ after)
            ++ page_text 6
            ++ to_html fmt_scalar df table_id table_classes false
            ++ page_text 7 ++ table_id ++ page_text 8))
  /\ dropdown_html i col (options_html options)
     = litq "
        <div class=`col-md-3 mb-3`>
            <label for=`filter-" ++ str_of_nat i
       ++ litq "` class=`form-label fw-bold`>" ++ col ++ litq "</label>
            <select class=`form-select filter-select` data-column=`"
       ++ str_of_nat i ++ litq "` id=`filter-" ++ str_of_nat i ++ litq "`>
                <option value=``>All</option>
                "
       ++ join [] (List.map
                     (fun val => litq "<option value=`" ++ val ++ litq "`>"
                                 ++ val ++ lit "</option>") options)
       ++ lit "
            </select>
        </div>
        "
  /\ (forall j, str_of_nat j = str_of_nat i -> j = i)
  /\ StronglySorted str_le options
  /\ NoDup options
  /\ forall val, val ∈ options
                 <-> exists v, v ∈ s_values s /\ val = py_str str_scalar v.
Proof.
  intros [Hnd _] Hi options.
  split; [|split; [reflexivity|split; [intros j; apply str_of_nat_inj|]]].
  - exists (dropdowns_from str_scalar 0 (take i df)),
           (dropdowns_from str_scalar (S i) (drop (S i) df)).
    rewrite create_enhanced_html_template_run by exact Hnd.
    unfold html_template. do 12 f_equal.
    rewrite <- (take_drop_middle df i (col, s) Hi) at 1.
    rewrite dropdowns_from_app. cbn [dropdowns_from fst snd plus].
    assert (Hlen : length (take i df) = i).
    { apply length_take_le. apply lookup_lt_Some in Hi. lia. }
    rewrite Hlen. by rewrite <- !app_assoc.
  - apply filter_values_spec.
Qed.

Lemma join_infix (sep : str) (l : list str) (x : str) :
  x ∈ l -> exists pre post, join sep l = pre ++ x ++ post.
Proof.
  induction l as [|y l IH]; intros Hx; [by apply elem_of_nil in Hx|].
  apply elem_of_cons in Hx. destruct Hx as [->|Hx].
  - destruct l as [|z l].
    + exists [], []. cbn [join]. by rewrite app_nil_r.
    + exists [], (sep ++ join sep (z :: l)). reflexivity.
  - destruct (IH Hx) as (pre & post & Heq).
    destruct l as [|z l]; [by apply elem_of_nil in Hx|].
    exists (y ++ sep ++ pre), post.
    change (join sep (y :: z :: l)) with (y ++ sep ++ join sep (z :: l)).
    rewrite Heq. by rewrite <- !app_assoc.
Qed.

Lemma escape_control_plain (t : str) :
  Forall (fun ch => ch <> 9 /\ ch <> 13 /\ ch <> 10) t ->
  escape_control t = t.
Proof.
  induction 1 as [|ch t (H9 & H13 & H10) _ IH]; [reflexivity|].
  cbn [escape_control flat_map]. fold (escape_control t). rewrite IH.
  destruct (N.eqb_spec ch 9); [done|].
  destruct (N.eqb_spec ch 13); [done|].
  destruct (N.eqb_spec ch 10); [done|]. reflexivity.
Qed.

(** The line of a cell stands in the markup of the table. *)
Lemma to_html_holds_cell df table_id classes escape c i v :
  c ∈ df -> s_values (snd c) !! i = Some v -> (i < len_df df)%nat ->
  exists pre post,
    to_html fmt_scalar df table_id classes escape
    = pre ++ td_line fmt_scalar escape v ++ post.
Proof.
  intros Hc Hv Hi. unfold to_html. apply join_infix.
  rewrite !elem_of_app. right. right. right. left.
  apply list_elem_of_In, in_flat_map. exists i. split.
  - apply in_seq. lia.
  - unfold tr_lines. apply in_or_app. right. apply in_or_app. left.
    apply in_map_iff. exists v. split; [reflexivity|].
    unfold row_values. apply in_map_iff. exists c.
    split; [|by apply list_elem_of_In].
    by apply nth_lookup_Some.
Qed.

(** A text cell, trimmed and free of tabs and line breaks, stands in the
    table markup as it is, whatever its length, with nothing escaped. *)
Lemma to_html_short_cell_verbatim df table_id classes c i t :
  c ∈ df -> s_values (snd c) !! i = Some (Str t) ->
  (i < len_df df)%nat ->
  trimmed t ->
  Forall (fun ch => ch <> 9 /\ ch <> 13 /\ ch <> 10) t ->
  exists pre post,
    to_html fmt_scalar df table_id classes false
    = pre ++ lit "<td>" ++ t ++ lit "</td>" ++ post.
Proof.
  intros Hc Hv Hi Htrim Hplain.
  destruct (to_html_holds_cell df table_id classes false c i (Str t)
              Hc Hv Hi) as (pre & post & Heq).
  exists (pre ++ lit "      "), post. rewrite Heq.
  unfold td_line, write_cell, display.
  rewrite (escape_control_plain t Hplain), Htrim.
  by rewrite <- !app_assoc.
Qed.

Lemma rstrip_by_fixed (p : char -> bool) (t : str) :
  (forall ch, last t = Some ch -> p ch = false) -> rstrip_by p t = t.
Proof.
  intros H. destruct t as [|a t] using rev_ind; [reflexivity|].
  unfold rstrip_by. rewrite rev_app_distr. cbn [rev app lstrip_by].
  rewrite (H a) by apply last_snoc.
  cbn [rev]. by rewrite rev_involutive.
Qed.

Lemma escape_control_cons (ch : char) (t : str) :
  isspace ch = false -> escape_control (ch :: t) = ch :: escape_control t.
Proof.
  intros Hch. cbn [escape_control flat_map]. fold (escape_control t).
  destruct (N.eqb_spec ch 9) as [->|_]; [discriminate Hch|].
  destruct (N.eqb_spec ch 13) as [->|_]; [discriminate Hch|].
  destruct (N.eqb_spec ch 10) as [->|_]; [discriminate Hch|]. reflexivity.
Qed.

Lemma escape_control_app (t1 t2 : str) :
  escape_control (t1 ++ t2) = escape_control t1 ++ escape_control t2.
Proof. apply flat_map_app. Qed.

(** Display text of a trimmed value is trimmed. *)
Lemma escape_control_trimmed (t : str) :
  trimmed t -> trimmed (escape_control t).
Proof.
  unfold trimmed. intros Ht.
  assert (Hhead : forall ch, head t = Some ch -> isspace ch = false).
  { rewrite <- Ht. apply strip_by_head. }
  assert (Hlast : forall ch, last t = Some ch -> isspace ch = false).
  { rewrite <- Ht. apply strip_by_last. }
  clear Ht. unfold strip, strip_by.
  rewrite lstrip_by_fixed.
  - apply rstrip_by_fixed. intros ch.
    destruct t as [|a t] using rev_ind; [discriminate|].
    rewrite escape_control_app.
    rewrite (escape_control_cons a []) by (apply Hlast, last_snoc).
    cbn [escape_control flat_map]. rewrite last_snoc.
    intros [= <-]. apply Hlast, last_snoc.
  - intros ch. destruct t as [|a t]; [discriminate|].
    rewrite escape_control_cons by (by apply Hhead).
    cbn [head]. intros [= <-]. by apply Hhead.
Qed.

(** C9 (amended): every cell of a text column of the cleaned table is a
    trimmed string, and the table markup holds it between <td> and </td>
    with each tab, carriage return and line feed written as a backslash
    and a letter and every other character as it is.  So a value without
    these three characters is contained verbatim, its <, > and & not
    escaped. *)
Theorem to_html_text_cells_unescaped df df' table_id c i v :
  clean str_scalar df = Ok df' ->
  c ∈ df' -> s_dtype (snd c) = object ->
  s_values (snd c) !! i = Some v -> (i < len_df df')%nat ->
  exists t,
    v = Str t /\ trimmed t
    /\ (exists pre post,
          to_html fmt_scalar df' table_id table_classes false
          = pre ++ lit "<td>" ++ escape_control t ++ lit "</td>" ++ post)
    /\ (Forall (fun ch => ch <> 9 /\ ch <> 13 /\ ch <> 10) t ->
        exists pre post,
          to_html fmt_scalar df' table_id table_classes false
          = pre ++ lit "<td>" ++ t ++ lit "</td>" ++ post).
Proof.
  intros Hrun Hc Hobj Hv Hi.
  destruct (clean_columns_spec str_scalar df df' Hrun)
    as (_ & _ & Hcells & _).
  rewrite Forall_forall in Hcells.
  destruct (Hcells c Hc) as [_ Hstripped].
  specialize (Hstripped Hobj). unfold stripped in Hstripped.
  rewrite Forall_forall in Hstripped.
  destruct (Hstripped v (list_elem_of_lookup_2 _ _ _ Hv)) as (t & -> & Ht).
  exists t. split; [reflexivity|]. split; [exact Ht|].
  destruct (to_html_holds_cell df' table_id table_classes false c i (Str t)
              Hc Hv Hi) as (pre & post & Heq).
  assert (Hline : td_line fmt_scalar false (Str t)
                  = lit "      " ++ lit "<td>" ++ escape_control t
                    ++ lit "</td>").
  { unfold td_line, write_cell, display.
    fold (strip (escape_control t)).
    by rewrite (escape_control_trimmed t Ht). }
  split.
  - exists (pre ++ lit "      "), post. rewrite Heq, Hline.
    by rewrite <- !app_assoc.
  - intros Hplain. exists (pre ++ lit "      "), post.
    rewrite Heq, Hline, (escape_control_plain t Hplain).
    by rewrite <- !app_assoc.
Qed.

End Rendering.

Lemma numbers_well_formed : well_formed Example.numbers_cleaned.
Proof.
  split; [apply (bool_decide_unpack _); by vm_compute | by repeat constructor].
Defined.

Lemma render_deterministic_witness :
  exists html,
    (forall run1 run2,
       run1 = create_enhanced_html_template Example.str_Z Example.str_Z
                Example.no_text Example.numbers_cleaned
                (lit "data-table") (lit "Numbers") ->
       run2 = create_enhanced_html_template Example.str_Z Example.str_Z
                Example.no_text Example.numbers_cleaned
                (lit "data-table") (lit "Numbers") ->
       run1 = Ok html /\ run2 = Ok html)
    /\ (exists options,
          Forall2 (fun c opts => options_of Example.str_Z (snd c) opts)
                  Example.numbers_cleaned options)
    /\ forall options,
         Forall2 (fun c opts => options_of Example.str_Z (snd c) opts)
                 Example.numbers_cleaned options ->
         html = lit "Numbers" ++ lit "Numbers" ++ lit "2" ++ lit "2"
                ++ lit "2"
                ++ dropdown_blocks 0 [lit "name"; lit "n"] options
                ++ to_html Example.str_Z Example.numbers_cleaned
                     (lit "data-table") table_classes false
                ++ lit "data-table".
Proof.
  exact (render_deterministic Example.str_Z Example.str_Z Example.no_text
           Example.numbers_cleaned (lit "data-table") (lit "Numbers")
           (proj1 numbers_well_formed)).
Defined.

Lemma filter_dropdown_options_witness :
  let options := [lit "1"; lit "2"] in
  (exists before after,
      create_enhanced_html_template Example.str_Z Example.str_Z
        Example.no_text Example.numbers_cleaned (lit "data-table")
        (lit "Numbers")
      = Ok (lit "Numbers" ++ lit "Numbers" ++ lit "2" ++ lit "2" ++ lit "2"
            ++ (before ++ dropdown_html 1 (lit "n") (options_html options)
                ++ after)
            ++ to_html Example.str_Z Example.numbers_cleaned
                 (lit "data-table") table_classes false
            ++ lit "data-table"))
  /\ dropdown_html 1 (lit "n") (options_html options)
     = litq "
        <div class=`col-md-3 mb-3`>
            <label for=`filter-1` class=`form-label fw-bold`>n</label>
            <select class=`form-select filter-select` data-column=`1` id=`filter-1`>
                <option value=``>All</option>
                <option value=`1`>1</option><option value=`2`>2</option>
            </select>
        </div>
        "
  /\ (forall j, str_of_nat j = str_of_nat 1 -> j = 1%nat)
  /\ StronglySorted str_le options
  /\ NoDup options
  /\ forall val, val ∈ options
                 <-> exists v, v ∈ [Num 1%Z; Num 2%Z]
                               /\ val = py_str Example.str_Z v.
Proof.
  exact (filter_dropdown_options Example.str_Z Example.str_Z
           Example.no_text Example.numbers_cleaned (lit "data-table")
           (lit "Numbers") 1 (lit "n") (mkSeries int64 [Num 1%Z; Num 2%Z])
           numbers_well_formed eq_refl).
Defined.

(** C9, as stated, fails: of a cell that holds a tab the table markup
    holds, instead of the value, the value with the tab written as a
    backslash and the letter t. *)
Lemma to_html_rewrites_tab :
  let html := to_html Example.str_Z More.tabbed (lit "data-table")
                table_classes false in
  clean Example.str_Z More.tabbed = Ok More.tabbed
  /\ occurs_in More.tab_value html = false
  /\ occurs_in (lit "<td>x\ty</td>") html = true.
Proof. vm_compute. done. Qed.

Lemma to_html_text_cells_unescaped_witness :
  exists t,
    Str (scalar:=Z) (lit "x<y&z") = Str t /\ trimmed t
    /\ (exists pre post,
          to_html Example.str_Z Example.long_cell (lit "data-table")
            table_classes false
          = pre ++ lit "<td>" ++ escape_control t ++ lit "</td>" ++ post)
    /\ (Forall (fun ch => ch <> 9 /\ ch <> 13 /\ ch <> 10) t ->
        exists pre post,
          to_html Example.str_Z Example.long_cell (lit "data-table")
            table_classes false
          = pre ++ lit "<td>" ++ t ++ lit "</td>" ++ post).
Proof.
  refine (to_html_text_cells_unescaped Example.str_Z Example.str_Z
            Example.long_cell Example.long_cell (lit "data-table")
            (lit "b", mkSeries object [Str (lit "x<y&z")]) 0
            (Str (lit "x<y&z")) _ _ _ _ _).
  - reflexivity.
  - apply list_elem_of_In. right. by left.
  - reflexivity.
  - reflexivity.
  - cbn. lia.
Defined.

(** ** The loader and the command line *)

Ltac run_world :=
  unfold bind, print, ret, raise, try_except, lift, log, read_events;
  cbn [fs trace List.map fst snd];
  rewrite <- ?app_assoc; cbn [app].

Section Running.

Context {scalar : Type}.
Variable str_scalar : scalar -> str.
Variable fmt_scalar : scalar -> str.
Variable page_text : nat -> str.
Variable pd_read_csv : bytes -> encoding -> char -> result (DataFrame scalar).
Variable decode_utf8_ignore : bytes -> str.
Variable encode_utf8 : str -> bytes.
Variable Path_suffix : str -> str.
Variable Path_with_suffix : str -> str -> str.
Variable Path_stem : str -> str.
Variable str_lower : str -> str.
Variable can_write : str -> bool.
Variable strerror : str -> str.
Variable encode_error : str -> str.

Lemma read_csv_existing csv_file content enc sep w :
  fs w !! csv_file = Some content ->
  read_csv pd_read_csv csv_file enc sep w
  = (pd_read_csv content enc sep, log (ReadCsv csv_file enc sep) w).
Proof. intros H. unfold read_csv. by rewrite H. Qed.

Lemma attempt_loop_rejected csv_file content l : forall w,
  fs w !! csv_file = Some content ->
  Forall (fun a => rejected (answer pd_read_csv content a) = true) l ->
  attempt_loop pd_read_csv csv_file l w
  = (Ok None, mkWorld (fs w) (trace w ++ read_events csv_file l)).
Proof.
  induction l as [|[enc d] l IH]; intros w Hf Hall.
  - run_world. rewrite app_nil_r. by destruct w.
  - apply Forall_cons in Hall. destruct Hall as [Hrej Hall].
    cbn [attempt_loop].
    rewrite (read_csv_existing _ _ _ _ _ Hf).
    unfold answer, rejected in Hrej. cbn [fst snd] in Hrej.
    assert (Hnext : attempt_loop pd_read_csv csv_file l
                      (log (ReadCsv csv_file enc d) w)
                    = (Ok None,
                       mkWorld (fs w)
                         (trace w ++ read_events csv_file ((enc, d) :: l)))).
    { rewrite IH by done. by run_world. }
    destruct (pd_read_csv content enc d) as [df|e].
    + apply negb_true_iff in Hrej. by rewrite Hrej.
    + by rewrite Hrej.
Qed.

Lemma attempt_loop_accepts csv_file content enc d df after before :
  forall w,
  fs w !! csv_file = Some content ->
  Forall (fun a => rejected (answer pd_read_csv content a) = true) before ->
  pd_read_csv content enc d = Ok df -> looks_reasonable df = true ->
  attempt_loop pd_read_csv csv_file (before ++ (enc, d) :: after) w
  = (Ok (Some df),
     mkWorld (fs w)
       (trace w ++ read_events csv_file (before ++ [(enc, d)])
        ++ [Printed (read_message enc d)])).
Proof.
  induction before as [|[enc0 d0] before IH]; intros w Hf Hall Hok Hgood.
  - cbn [app attempt_loop].
    rewrite (read_csv_existing _ _ _ _ _ Hf), Hok, Hgood.
    by run_world.
  - apply Forall_cons in Hall. destruct Hall as [Hrej Hall].
    cbn [app attempt_loop].
    rewrite (read_csv_existing _ _ _ _ _ Hf).
    unfold answer, rejected in Hrej. cbn [fst snd] in Hrej.
    assert (Hnext : attempt_loop pd_read_csv csv_file
                      (before ++ (enc, d) :: after)
                      (log (ReadCsv csv_file enc0 d0) w)
                    = (Ok (Some df),
                       mkWorld (fs w)
                         (trace w
                          ++ read_events csv_file
                               (((enc0, d0) :: before) ++ [(enc, d)])
                          ++ [Printed (read_message enc d)]))).
    { rewrite IH by done. run_world. reflexivity. }
    destruct (pd_read_csv content enc0 d0) as [df0|e].
    + apply negb_true_iff in Hrej. by rewrite Hrej.
    + by rewrite Hrej.
Qed.

Lemma attempt_loop_app csv_file l1 l2 : forall w,
  attempt_loop pd_read_csv csv_file (l1 ++ l2) w
  = match attempt_loop pd_read_csv csv_file l1 w with
    | (Ok None, w') => attempt_loop pd_read_csv csv_file l2 w'
    | r => r
    end.
Proof.
  induction l1 as [|[enc d] l1 IH]; intros w; [reflexivity|].
  cbn [app attempt_loop].
  destruct (read_csv pd_read_csv csv_file enc d w) as [[df|e] w1].
  - destruct (looks_reasonable df); [reflexivity | apply IH].
  - destruct (skipped e); [apply IH | reflexivity].
Qed.

Lemma delimiter_loop_flat csv_file enc ds : forall w,
  delimiter_loop pd_read_csv csv_file enc ds w
  = attempt_loop pd_read_csv csv_file (List.map (pair enc) ds) w.
Proof.
  induction ds as [|d ds IH]; intros w; [reflexivity|].
  cbn [List.map delimiter_loop attempt_loop].
  destruct (read_csv pd_read_csv csv_file enc d w) as [[df|e] w1].
  - destruct (looks_reasonable df); [reflexivity | apply IH].
  - destruct (skipped e); [apply IH | reflexivity].
Qed.

(** The two nested loops make the attempts of the one loop. *)
Lemma encoding_loop_flat csv_file es : forall w,
  encoding_loop pd_read_csv csv_file es w
  = attempt_loop pd_read_csv csv_file
      (flat_map (fun enc => List.map (pair enc) delimiters) es) w.
Proof.
  induction es as [|enc es IH]; intros w; [reflexivity|].
  cbn [flat_map encoding_loop]. unfold bind.
  rewrite delimiter_loop_flat, attempt_loop_app.
  destruct (attempt_loop pd_read_csv csv_file (List.map (pair enc) delimiters) w)
    as [[[df|]|e] w1]; [reflexivity | apply IH | reflexivity].
Qed.

Lemma first_row_notna_count (df : DataFrame scalar) :
  first_row_notna df = length (List.filter present (row_values df 0)).
Proof.
  unfold first_row_notna, row_values.
  induction df as [|[name s] df IH]; [reflexivity|].
  cbn [List.map List.filter snd].
  destruct (s_values s) as [|v vs]; cbn [nth present notna].
  - exact IH.
  - destruct v; cbn [present notna length]; by rewrite ?IH.
Qed.

(** The test of the code is the test of the specification. *)
Lemma looks_reasonable_iff (df : DataFrame scalar) :
  looks_reasonable df = true <-> passes_test df.
Proof.
  unfold looks_reasonable, passes_test.
  rewrite first_row_notna_count, !andb_true_iff, !Nat.ltb_lt.
  split; [intros [[H1 H2] H3] | intros (H1 & H2 & H3)]; done.
Qed.

Lemma skipped_iff (e : exn) : skipped e = true <-> caught e.
Proof.
  unfold caught. split.
  - destruct e as [m|m|m|m|m|m|m|m]; try discriminate; intros _; exists m;
      [left | right; left | right; right]; reflexivity.
  - by intros (m & [->|[->| ->]]).
Qed.

Lemma rejected_iff (r : result (DataFrame scalar)) :
  rejected r = true <-> turned_down r.
Proof.
  destruct r as [df|e]; cbn [rejected turned_down].
  - rewrite negb_true_iff, <- looks_reasonable_iff.
    by destruct (looks_reasonable df).
  - apply skipped_iff.
Qed.

(** C2 (amended): the loader makes its attempts encoding by encoding
    (utf-8, latin-1, cp1252, iso-8859-1) and, within an encoding,
    delimiter by delimiter (comma, semicolon, tab, pipe).  The test of
    an attempt holds exactly of a table with more than one column, at
    least one row and more than half of the cells of its first row
    present.  When the parser returns a table that passes the test, and
    every earlier attempt ended in a decoding, empty-data or parser error
    or in a table that fails the test, the loader returns that table,
    having made the attempts up to this one and no attempt after it. *)
Theorem repair_and_read_csv_first_accepted csv_file content w k enc
  delimiter df :
  fs w !! csv_file = Some content ->
  attempts !! k = Some (enc, delimiter) ->
  Forall (fun a => turned_down (pd_read_csv content (fst a) (snd a)))
         (take k attempts) ->
  pd_read_csv content enc delimiter = Ok df ->
  passes_test df ->
  attempts
  = [(utf_8, comma); (utf_8, semicolon); (utf_8, tab); (utf_8, pipe);
     (latin_1, comma); (latin_1, semicolon); (latin_1, tab);
     (latin_1, pipe);
     (cp1252, comma); (cp1252, semicolon); (cp1252, tab); (cp1252, pipe);
     (iso_8859_1, comma); (iso_8859_1, semicolon); (iso_8859_1, tab);
     (iso_8859_1, pipe)]
  /\ (forall df' : DataFrame scalar,
        looks_reasonable df' = true
        <-> (1 < length (columns df'))%nat
            /\ (0 < len_df df')%nat
            /\ (length (columns df')
                < 2 * length (List.filter
                                (fun v => match v with
                                          | NaN => false
                                          | _ => true
                                          end)
                                (List.map
                                   (fun c : str * Series scalar =>
                                      nth 0 (s_values (snd c)) NaN) df')))%nat)
  /\ repair_and_read_csv pd_read_csv decode_utf8_ignore csv_file w
     = (Ok (Some df),
        mkWorld (fs w)
          (trace w ++ read_events csv_file (take (S k) attempts)
           ++ [Printed (read_message enc delimiter)])).
Proof.
  intros Hf Hk Hrej Hok Hgood.
  split; [reflexivity|]. split; [apply looks_reasonable_iff|].
  assert (Hrun : attempt_loop pd_read_csv csv_file attempts w
                 = (Ok (Some df),
                    mkWorld (fs w)
                      (trace w ++ read_events csv_file (take (S k) attempts)
                       ++ [Printed (read_message enc delimiter)]))).
  { rewrite (take_S_r _ _ _ Hk).
    rewrite <- (take_drop_middle attempts k (enc, delimiter) Hk) at 1.
    apply (attempt_loop_accepts _ content); try done.
    - eapply Forall_impl; [exact Hrej|]. intros a Ha.
      by apply rejected_iff.
    - by apply looks_reasonable_iff. }
  unfold repair_and_read_csv, bind.
  rewrite encoding_loop_flat.
  change (flat_map _ encodings) with attempts. by rewrite Hrun.
Qed.

Lemma repair_and_read_csv_unparseable csv_file content w :
  fs w !! csv_file = Some content ->
  Forall (fun a => rejected (answer pd_read_csv content a) = true) attempts ->
  manual_parse (decode_utf8_ignore content) = None ->
  repair_and_read_csv pd_read_csv decode_utf8_ignore csv_file w
  = (Ok None,
     mkWorld (fs w)
       (trace w ++ read_events csv_file attempts ++ [OpenRead csv_file])).
Proof.
  intros Hf Hrej Hman.
  unfold repair_and_read_csv, bind.
  rewrite encoding_loop_flat.
  change (flat_map _ encodings) with attempts.
  rewrite (attempt_loop_rejected _ content) by done.
  unfold manual_fallback, try_except, bind, open_read. cbn [fs].
  rewrite Hf, Hman. by run_world.
Qed.

Lemma create_html_from_csv_unparseable csv_file table_id title content w :
  fs w !! csv_file = Some content ->
  Forall (fun a => rejected (answer pd_read_csv content a) = true) attempts ->
  manual_parse (decode_utf8_ignore content) = None ->
  create_html_from_csv str_scalar fmt_scalar page_text pd_read_csv
    decode_utf8_ignore csv_file table_id title w
  = (Ok (error_html unreadable),
     mkWorld (fs w)
       (trace w ++ read_events csv_file attempts ++ [OpenRead csv_file])).
Proof.
  intros Hf Hrej Hman.
  unfold create_html_from_csv, try_except, bind.
  by rewrite (repair_and_read_csv_unparseable _ content).
Qed.

(** C1: for a file that exists and is named .csv but yields no table
    (every attempt rejected, nothing recovered by the manual parser), the
    program writes the error page to the output file, prints that the
    conversion succeeded, and exits with status 0. *)
Theorem main_unparseable_exit_status a content w :
  fs w !! input_file a = Some content ->
  str_lower (Path_suffix (input_file a)) = lit ".csv" ->
  Forall (fun t => rejected (answer pd_read_csv content t) = true) attempts ->
  manual_parse (decode_utf8_ignore content) = None ->
  let out := match output_file a with
             | None => Path_with_suffix (input_file a) (lit ".html")
             | Some o => o
             end in
  can_write out = true -> out <> [] ->
  exists w',
    main str_scalar fmt_scalar page_text pd_read_csv
       decode_utf8_ignore encode_utf8 Path_suffix Path_with_suffix Path_stem
       str_lower can_write strerror encode_error a w = (0%Z, w')
    /\ fs w' = <[out := encode_utf8 (error_html unreadable)]> (fs w)
    /\ Printed (mark_ok ++ lit " Successfully converted '" ++ input_file a
              ++ lit "' to '" ++ out ++ lit "'") ∈ trace w'.
Proof.
  intros Hf Hext Hrej Hman out Hw Hout.
  unfold main, convert_csv_to_html, try_except,
    convert_body.
  rewrite bool_decide_eq_true_2 by (by rewrite Hf).
  rewrite bool_decide_eq_true_2 by exact Hext.
  fold out. unfold bind at 1. unfold print at 1.
  unfold bind at 1.
  rewrite (create_html_from_csv_unparseable _ _ _ content) by done.
  unfold bind at 1. unfold print at 1.
  unfold bind at 1. unfold open_write. rewrite Hw.
  assert (Henc : encodable (error_html unreadable) = true) by (by vm_compute).
  rewrite Henc.
  run_world. clearbody out.
  destruct out as [|ch out']; [done|].
  eexists. split; [reflexivity|]. cbn [fs trace]. split; [reflexivity|].
  rewrite elem_of_app. right. rewrite elem_of_cons. right.
  rewrite elem_of_app. right.
  rewrite !elem_of_cons. right. right. right. by left.
Qed.

(** C5: for a path that does not exist the conversion raises
    FileNotFoundError, and for an existing path whose extension is not
    .csv it raises ValueError, in both cases before anything is read or
    parsed; the program then prints the error and exits with status 1,
    and the file system is as it was: no output file is written. *)
Theorem convert_rejects_missing_and_wrong_type a w :
  (fs w !! input_file a = None ->
   convert_body str_scalar fmt_scalar page_text pd_read_csv
       decode_utf8_ignore encode_utf8 Path_suffix Path_with_suffix Path_stem
       str_lower can_write strerror encode_error
       (input_file a) (output_file a) (title a) w
   = (Raise (FileNotFoundError
               (lit "Input file '" ++ input_file a ++ lit "' not found")), w)
   /\ main str_scalar fmt_scalar page_text pd_read_csv
       decode_utf8_ignore encode_utf8 Path_suffix Path_with_suffix Path_stem
       str_lower can_write strerror encode_error a w
      = (1%Z,
         mkWorld (fs w)
           (trace w
            ++ [Printed (mark_error ++ lit " Error: " ++ lit "Input file '"
                       ++ input_file a ++ lit "' not found")])))
  /\ (is_Some (fs w !! input_file a) ->
      str_lower (Path_suffix (input_file a)) <> lit ".csv" ->
      convert_body str_scalar fmt_scalar page_text pd_read_csv
       decode_utf8_ignore encode_utf8 Path_suffix Path_with_suffix Path_stem
       str_lower can_write strerror encode_error
       (input_file a) (output_file a) (title a) w
      = (Raise (ValueError (lit "Input file must be a CSV file")), w)
      /\ main str_scalar fmt_scalar page_text pd_read_csv
       decode_utf8_ignore encode_utf8 Path_suffix Path_with_suffix Path_stem
       str_lower can_write strerror encode_error a w
         = (1%Z,
            mkWorld (fs w)
              (trace w
               ++ [Printed (mark_error ++ lit " Error: "
                          ++ lit "Input file must be a CSV file")]))).
Proof.
  split.
  - intros Hnone.
    assert (Hbody : convert_body str_scalar fmt_scalar page_text pd_read_csv
       decode_utf8_ignore encode_utf8 Path_suffix Path_with_suffix Path_stem
       str_lower can_write strerror encode_error
       (input_file a) (output_file a) (title a) w
                    = (Raise (FileNotFoundError
                                (lit "Input file '" ++ input_file a
                                 ++ lit "' not found")), w)).
    { unfold convert_body.
      rewrite bool_decide_eq_false_2; [reflexivity|].
      rewrite Hnone. by intros [x Hx]. }
    split; [exact Hbody|].
    unfold main, convert_csv_to_html, try_except.
    rewrite Hbody. by run_world.
  - intros Hsome Hext.
    assert (Hbody : convert_body str_scalar fmt_scalar page_text pd_read_csv
       decode_utf8_ignore encode_utf8 Path_suffix Path_with_suffix Path_stem
       str_lower can_write strerror encode_error
       (input_file a) (output_file a) (title a) w
                    = (Raise (ValueError
                                (lit "Input file must be a CSV file")), w)).
    { unfold convert_body.
      rewrite bool_decide_eq_true_2 by exact Hsome.
      by rewrite bool_decide_eq_false_2 by exact Hext. }
    split; [exact Hbody|].
    unfold main, convert_csv_to_html, try_except.
    rewrite Hbody. by run_world.
Qed.

End Running.

(** C2, as stated, fails: an attempt that ends in an error the loader
    does not catch is not accepted, yet the loader makes no later attempt;
    here the second attempt would have been accepted. *)
Lemma loader_stops_at_uncaught_error :
  accepted (More.transient Example.data_csv utf_8 comma) = false
  /\ More.transient Example.data_csv utf_8 semicolon = Ok Example.parsed
  /\ accepted (More.transient Example.data_csv utf_8 semicolon) = true
  /\ repair_and_read_csv More.transient Example.decode (lit "data.csv")
       Example.start
     = (Raise (OSError (lit "[Errno 5] Input/output error")),
        mkWorld Example.disk [ReadCsv (lit "data.csv") utf_8 comma]).
Proof. repeat split. Qed.

Lemma repair_and_read_csv_first_accepted_witness :
  turned_down (Example.parse More.halves_csv utf_8 comma)
  /\ turned_down (Example.parse More.halves_csv utf_8 semicolon)
  /\ repair_and_read_csv Example.parse Example.decode (lit "halves.csv")
       More.halves_start
     = (Ok (Some More.halves),
        mkWorld (fs More.halves_start)
          (read_events (lit "halves.csv")
             [(utf_8, comma); (utf_8, semicolon); (utf_8, tab);
              (utf_8, pipe)]
           ++ [Printed (read_message utf_8 pipe)])).
Proof.
  assert (Hcomma : turned_down (Example.parse More.halves_csv utf_8 comma)).
  { intros (_ & _ & H). vm_compute in H. lia. }
  assert (Hsemi : turned_down (Example.parse More.halves_csv utf_8 semicolon)).
  { intros (H & _). vm_compute in H. lia. }
  assert (Htab : turned_down (Example.parse More.halves_csv utf_8 tab)).
  { intros (H & _). vm_compute in H. lia. }
  split; [exact Hcomma|]. split; [exact Hsemi|].
  refine (proj2 (proj2 (repair_and_read_csv_first_accepted
                          Example.parse Example.decode (lit "halves.csv")
                          More.halves_csv More.halves_start 3 utf_8 pipe
                          More.halves _ _ _ _ _))).
  - by vm_compute.
  - reflexivity.
  - repeat constructor; assumption.
  - reflexivity.
  - vm_compute. lia.
Defined.

Lemma main_unparseable_exit_status_witness :
  exists w',
    Example.run_main (mkArgs (lit "empty.csv") None None) = (0%Z, w')
    /\ fs w' = <[lit "empty.html" := Example.encode (error_html unreadable)]>
                 Example.disk
    /\ Printed (mark_ok ++ lit " Successfully converted 'empty.csv' to "
              ++ lit "'empty.html'") ∈ trace w'.
Proof.
  refine (main_unparseable_exit_status
            Example.str_Z Example.str_Z Example.no_text Example.parse
            Example.decode Example.encode Example.extension
            Example.with_suffix Example.stem Example.lower Example.writable Example.os_message Example.codec_message
            (mkArgs (lit "empty.csv") None None) [] Example.start
            _ _ _ _ _ _).
  - by vm_compute.
  - reflexivity.
  - repeat constructor.
  - reflexivity.
  - reflexivity.
  - by vm_compute.
Defined.

Lemma convert_rejects_missing_and_wrong_type_witness :
  Example.run_main (mkArgs (lit "nope.csv") None None)
  = (1%Z,
     mkWorld Example.disk
       [Printed (mark_error
               ++ lit " Error: Input file 'nope.csv' not found")])
  /\ Example.run_main (mkArgs (lit "notes.txt") None None)
     = (1%Z,
        mkWorld Example.disk
          [Printed (mark_error ++ lit " Error: Input file must be a CSV file")]).
Proof.
  split.
  - refine (proj2 (proj1 (convert_rejects_missing_and_wrong_type
                            Example.str_Z Example.str_Z Example.no_text
                            Example.parse Example.decode Example.encode
                            Example.extension Example.with_suffix
                            Example.stem Example.lower Example.writable Example.os_message Example.codec_message
                            (mkArgs (lit "nope.csv") None None)
                            Example.start) _)).
    by vm_compute.
  - refine (proj2 (proj2 (convert_rejects_missing_and_wrong_type
                            Example.str_Z Example.str_Z Example.no_text
                            Example.parse Example.decode Example.encode
                            Example.extension Example.with_suffix
                            Example.stem Example.lower Example.writable Example.os_message Example.codec_message
                            (mkArgs (lit "notes.txt") None None)
                            Example.start) _ _)).
    + exists Example.notes_txt. by vm_compute.
    + by vm_compute.
Defined.

(** * Further properties of the code *)

(** ** Splitting lines in the manual parser *)

Lemma split_nonempty (sep : char) (s : str) : split sep s <> [].
Proof.
  destruct s as [|c s]; simpl; [discriminate|].
  destruct (c =? sep); [discriminate|].
  destruct (split sep s); discriminate.
Qed.

Lemma length_split (sep : char) (s : str) :
  length (split sep s) = S (count_char sep s).
Proof.
  unfold count_char. induction s as [|c s IH]; [reflexivity|].
  cbn [split List.filter]. rewrite (N.eqb_sym sep c).
  destruct (c =? sep).
  - cbn [length]. by rewrite IH.
  - destruct (split sep s) as [|f fs] eqn:Hs; [by apply split_nonempty in Hs|].
    exact IH.
Qed.

Lemma length_split_fields (delimiter : char) (line : str) :
  length (split_fields delimiter line) = S (count_char delimiter line).
Proof. unfold split_fields. by rewrite length_map, length_split. Qed.

Lemma filter_map_comm {A B} (f : A -> B) (P : B -> bool) (l : list A) :
  List.filter P (List.map f l) = List.map f (List.filter (fun x => P (f x)) l).
Proof.
  induction l as [|x l IH]; [reflexivity|]. cbn [List.map List.filter].
  destruct (P (f x)); cbn [List.map]; by rewrite IH.
Qed.

(** The manual parser keeps a line exactly when it holds as many
    delimiter characters as the first line; quotes protect nothing. *)
Theorem manual_fallback_counts_delimiters (content first_line : str)
  (rest : list str) :
  nonempty_lines content = first_line :: rest -> rest <> [] ->
  let delimiter := detect_delimiter first_line in
  let kept :=
    List.filter (fun line => Nat.eqb (count_char delimiter line)
                                     (count_char delimiter first_line))
                rest in
  manual_parse content
  = match kept with
    | [] => None
    | _ :: _ => Some (delimiter, split_fields delimiter first_line,
                      List.map (split_fields delimiter) kept)
    end.
Proof.
  intros Hl Hne. cbv zeta.
  rewrite (manual_parse_lines _ _ _ Hl).
  destruct rest as [|l rest']; [done|].
  cbv zeta. rewrite collect_rows_filter, app_nil_l, filter_map_comm.
  assert (Hf : List.filter
                 (fun x => Nat.eqb
                             (length (split_fields
                                        (detect_delimiter first_line) x))
                             (length (split_fields
                                        (detect_delimiter first_line)
                                        first_line)))
                 (l :: rest')
               = List.filter
                   (fun line =>
                      Nat.eqb (count_char (detect_delimiter first_line) line)
                              (count_char (detect_delimiter first_line)
                                          first_line))
                   (l :: rest')).
  { apply List.filter_ext. intros x. rewrite !length_split_fields.
    reflexivity. }
  rewrite Hf. clear Hf.
  destruct (List.filter _ (l :: rest')); reflexivity.
Qed.

Lemma manual_fallback_counts_delimiters_witness :
  manual_parse Example.ragged
  = Some (semicolon, [lit "a"; lit "b,c"],
          List.map (split_fields semicolon) [lit "1 ; 2"; lit "3;4"]).
Proof.
  exact (manual_fallback_counts_delimiters Example.ragged (lit "a;b,c")
           [lit "1 ; 2"; lit "x;y;z"; lit "3;4"] eq_refl
           ltac:(discriminate)).
Defined.

(** What the manual parser returns is never empty: there is a header
    field, there is a row, every row is as wide as the header, and the
    delimiter is one of the four candidates. *)
Theorem manual_parse_shape (content : str) (delimiter : char)
  (headers : list str) (data : list (list str)) :
  manual_parse content = Some (delimiter, headers, data) ->
  delimiter ∈ manual_candidates
  /\ headers <> [] /\ data <> []
  /\ Forall (fun row => length row = length headers) data.
Proof.
  unfold manual_parse.
  destruct (Nat.ltb _ 2); [discriminate|].
  destruct (nonempty_lines content) as [|first_line rest]; [discriminate|].
  cbv zeta. rewrite collect_rows_filter, app_nil_l.
  destruct (List.filter _ _) as [|row rows] eqn:Hf; [discriminate|].
  intros [= <- <- <-]. split; [|split; [|split]].
  - unfold detect_delimiter, manual_candidates. simpl.
    repeat match goal with |- context [contains ?d first_line] =>
      destruct (contains d first_line) end;
      rewrite !elem_of_cons; auto.
  - intros H. apply (f_equal length) in H.
    rewrite length_split_fields in H. discriminate.
  - discriminate.
  - rewrite <- Hf. apply Forall_forall. intros r Hr.
    apply list_elem_of_In, filter_In in Hr. destruct Hr as [_ Hr].
    by apply Nat.eqb_eq.
Qed.

Lemma manual_parse_shape_witness :
  semicolon ∈ manual_candidates
  /\ [lit "a"; lit "b,c"] <> []
  /\ [[lit "1"; lit "2"]; [lit "3"; lit "4"]] <> []
  /\ Forall (fun row => length row = length [lit "a"; lit "b,c"])
            [[lit "1"; lit "2"]; [lit "3"; lit "4"]].
Proof.
  exact (manual_parse_shape Example.ragged semicolon [lit "a"; lit "b,c"]
           [[lit "1"; lit "2"]; [lit "3"; lit "4"]] eq_refl).
Defined.

(** ** The frame of the manual parser *)

Lemma lookup_map {A B} (f : A -> B) (l : list A) (i : nat) :
  List.map f l !! i = f <$> l !! i.
Proof.
  revert i. induction l as [|x l IH]; intros [|i]; simpl; auto.
Qed.

Lemma map_fst_imap {A B C} (g : nat -> A -> B * C) (l : list A)
  (f : A -> B) :
  (forall j x, fst (g j x) = f x) ->
  List.map fst (imap g l) = List.map f l.
Proof.
  revert g. induction l as [|x l IH]; intros g Hg; [reflexivity|].
  cbn [imap List.map]. rewrite Hg. f_equal. apply IH.
  intros j y. apply Hg.
Qed.

Lemma imap_nth_row {scalar} (headers row : list str) :
  length row = length headers ->
  imap (fun j (_ : str) => Str (scalar:=scalar) (nth j row [])) headers
  = List.map Str row.
Proof.
  revert row. induction headers as [|h hs IH]; intros [|r row] Hlen;
    try discriminate; [reflexivity|].
  cbn [imap List.map nth]. f_equal. apply IH. by injection Hlen.
Qed.

Lemma map_imap {A B C} (g : nat -> A -> B) (f : B -> C) (l : list A) :
  List.map f (imap g l) = imap (fun j x => f (g j x)) l.
Proof.
  revert g. induction l as [|x l IH]; intros g; [reflexivity|].
  cbn [imap List.map]. f_equal. apply IH.
Qed.

Lemma imap_ext_all {A B} (g1 g2 : nat -> A -> B) (l : list A) :
  (forall j x, g1 j x = g2 j x) -> imap g1 l = imap g2 l.
Proof.
  revert g1 g2. induction l as [|x l IH]; intros g1 g2 Hg; [reflexivity|].
  cbn [imap]. rewrite Hg. f_equal. apply IH. intros j y. apply Hg.
Qed.

(** The frame the manual parser builds from rows as wide as the header
    has the header fields as its column names, one row per kept row, and
    row i holds the cells of the i-th kept row, as text. *)
Theorem manual_frame_holds_the_rows {scalar} (data : list (list str))
  (headers : list str) :
  headers <> [] ->
  Forall (fun row => length row = length headers) data ->
  let df := DataFrame_of_rows (scalar:=scalar) data headers in
  columns df = headers
  /\ len_df df = length data
  /\ Forall (fun c => s_dtype (snd c) = object
                      /\ length (s_values (snd c)) = length data) df
  /\ forall i row, data !! i = Some row ->
                   row_values df i = List.map Str row.
Proof.
  intros Hne Hall df. subst df. unfold DataFrame_of_rows.
  split; [|split; [|split]].
  - unfold columns. rewrite (map_fst_imap _ _ id); [apply List.map_id|done].
  - destruct headers as [|h hs]; [done|].
    cbn [imap len_df s_values]. apply length_map.
  - apply Forall_forall. intros c Hc.
    apply list_elem_of_lookup in Hc. destruct Hc as [j Hc].
    rewrite list_lookup_imap in Hc.
    destruct (headers !! j) as [h|]; [|discriminate].
    injection Hc as <-. cbn [snd s_dtype s_values].
    split; [reflexivity | apply length_map].
  - intros i row Hi. unfold row_values. rewrite map_imap.
    rewrite <- (imap_nth_row headers row).
    + apply imap_ext_all. intros j h. cbn [snd s_values].
      apply nth_lookup_Some. rewrite lookup_map, Hi. reflexivity.
    + rewrite Forall_forall in Hall. apply Hall.
      by apply list_elem_of_lookup_2 in Hi.
Qed.

Lemma manual_frame_holds_the_rows_witness :
  row_values (DataFrame_of_rows (scalar:=Z)
                [[lit "1"; lit "2"]; [lit "3"; lit "4"]] [lit "a"; lit "b"])
             1%nat
  = [Str (lit "3"); Str (lit "4")].
Proof.
  refine (proj2 (proj2 (proj2 (manual_frame_holds_the_rows (scalar:=Z)
            [[lit "1"; lit "2"]; [lit "3"; lit "4"]] [lit "a"; lit "b"]
            _ _))) 1%nat [lit "3"; lit "4"] eq_refl).
  - discriminate.
  - by repeat constructor.
Defined.

(** ** Cleaning, column by column *)

Section CleaningMore.

Context {scalar : Type}.
Variable str_scalar : scalar -> str.

Implicit Types (df : DataFrame scalar) (s : Series scalar)
  (c : str * Series scalar) (v : value scalar).

Lemma setitem_fresh df col s : col ∉ columns df -> setitem df col s = df.
Proof.
  induction df as [|c df IH]; [reflexivity|].
  unfold columns. cbn [List.map setitem]. rewrite not_elem_of_cons.
  intros [Hne Hnin]. rewrite bool_decide_eq_false_2 by congruence.
  f_equal. by apply IH.
Qed.

Lemma setitem_middle pre cs col s0 s :
  col ∉ columns pre -> col ∉ columns cs ->
  setitem (pre ++ (col, s0) :: cs) col s = pre ++ (col, s) :: cs.
Proof.
  intros Hpre Hcs. unfold setitem. rewrite List.map_app. cbn [List.map fst].
  rewrite bool_decide_eq_true_2 by reflexivity.
  fold (setitem pre col s). fold (setitem cs col s).
  by rewrite !setitem_fresh.
Qed.

Lemma columns_app df1 df2 : columns (df1 ++ df2) = columns df1 ++ columns df2.
Proof. apply List.map_app. Qed.

(** With distinct names the loop cleans each column it visits and leaves
    the others. *)
Lemma clean_loop_closed cs : forall pre,
  NoDup (columns (pre ++ cs)) ->
  clean_loop str_scalar (columns cs) (pre ++ cs)
  = Ok (pre ++ List.map (clean_column str_scalar) cs).
Proof.
  induction cs as [|[n s] cs IH]; intros pre Hnd.
  - cbn. reflexivity.
  - assert (Hsplit : (n ∉ columns pre) /\ (n ∉ columns cs)
                     /\ NoDup (columns ((pre ++ [(n, s)]) ++ cs))).
    { rewrite <- app_assoc. cbn [app]. split; [|split; [|exact Hnd]].
      - rewrite columns_app in Hnd. apply NoDup_app in Hnd.
        destruct Hnd as (_ & Hdis & _). intros Hin.
        apply (Hdis n Hin). unfold columns. cbn [List.map fst]. by left.
      - rewrite columns_app in Hnd. apply NoDup_app in Hnd.
        destruct Hnd as (_ & _ & Hnd). unfold columns in Hnd.
        cbn [List.map fst] in Hnd. by apply NoDup_cons in Hnd as [? _]. }
    destruct Hsplit as (Hpre & Hcs & Hnd').
    cbn [columns List.map fst clean_loop]. fold (columns cs).
    rewrite (getitem_unique_name _ n s) by
      (try done; rewrite elem_of_app; right; by left).
    unfold clean_column at 1. cbn [fst snd].
    destruct (bool_decide (s_dtype s = object)).
    + rewrite setitem_middle by done.
      rewrite (cons_middle _ pre cs). rewrite app_assoc.
      rewrite IH; [by rewrite <- app_assoc|].
      rewrite !columns_app in *. exact Hnd'.
    + rewrite (cons_middle _ pre cs). rewrite app_assoc.
      rewrite IH by exact Hnd'. by rewrite <- app_assoc.
Qed.

Lemma name_count_setitem df col col' s :
  length (List.filter (fun c => bool_decide (fst c = col)) (setitem df col' s))
  = length (List.filter (fun c => bool_decide (fst c = col)) df).
Proof.
  induction df as [|c df IH]; [reflexivity|].
  cbn [setitem List.map List.filter].
  destruct (bool_decide (fst c = col')); cbn [fst];
    destruct (bool_decide (fst c = col)); cbn [length];
    fold (setitem df col' s); by rewrite IH.
Qed.

Lemma getitem_counts df col attr s :
  getitem df col attr = Ok s ->
  length (List.filter (fun c => bool_decide (fst c = col)) df) = 1%nat.
Proof.
  unfold getitem.
  destruct (List.filter _ df) as [|[n s0] [|]]; try discriminate. done.
Qed.

Lemma clean_loop_counts cols : forall df df',
  clean_loop str_scalar cols df = Ok df' ->
  forall col, col ∈ cols ->
    length (List.filter (fun c => bool_decide (fst c = col)) df) = 1%nat.
Proof.
  induction cols as [|col0 rest IH]; intros df df' Hrun col Hin;
    [by apply elem_of_nil in Hin|].
  cbn [clean_loop] in Hrun.
  destruct (getitem df col0 (lit "dtype")) as [s|e] eqn:Hget;
    [|discriminate].
  apply elem_of_cons in Hin. destruct Hin as [->|Hin].
  - by apply getitem_counts in Hget.
  - destruct (bool_decide (s_dtype s = object)).
    + rewrite <- (name_count_setitem df col col0
                    (str_strip (astype_str str_scalar s))).
      by apply (IH _ _ Hrun).
    + by apply (IH _ _ Hrun).
Qed.

Lemma counts_NoDup df :
  (forall col, col ∈ columns df ->
     length (List.filter (fun c => bool_decide (fst c = col)) df) = 1%nat) ->
  NoDup (columns df).
Proof.
  induction df as [|c df IH]; intros Hcount; [constructor|].
  unfold columns. cbn [List.map]. apply NoDup_cons. split.
  - intros Hin. specialize (Hcount (fst c) ltac:(by left)).
    cbn [List.filter] in Hcount.
    rewrite bool_decide_eq_true_2 in Hcount by reflexivity.
    cbn [length] in Hcount. injection Hcount as Hcount.
    apply list_elem_of_In, in_map_iff in Hin.
    destruct Hin as (c' & Hname & Hc').
    assert (Hf : In c' (List.filter
                          (fun c0 => bool_decide (fst c0 = fst c)) df)).
    { apply filter_In. split; [done | by apply bool_decide_eq_true]. }
    destruct (List.filter _ df); [done | discriminate].
  - apply IH. intros col Hin.
    specialize (Hcount col ltac:(by right)).
    cbn [List.filter] in Hcount.
    destruct (bool_decide (fst c = col)); [|exact Hcount].
    cbn [length] in Hcount. injection Hcount as Hcount.
    apply list_elem_of_In, in_map_iff in Hin.
    destruct Hin as (c' & Hname & Hc').
    assert (Hf : In c' (List.filter (fun c0 => bool_decide (fst c0 = col)) df)).
    { apply filter_In. split; [done | by apply bool_decide_eq_true]. }
    destruct (List.filter _ df); [done | discriminate].
Qed.

Lemma clean_loop_raises cols : forall df e,
  clean_loop str_scalar cols df = Raise e -> e = no_dtype.
Proof.
  induction cols as [|col rest IH]; intros df e Hrun; [discriminate|].
  cbn [clean_loop] in Hrun.
  destruct (getitem df col (lit "dtype")) as [s|e0] eqn:Hget.
  - destruct (bool_decide (s_dtype s = object)); by apply IH in Hrun.
  - injection Hrun as <-. unfold getitem in Hget.
    destruct (List.filter _ df) as [|[n s0] [|]];
      try discriminate; injection Hget as <-; reflexivity.
Qed.

Lemma columns_prepared df :
  columns (fillna (strip_columns df)) = List.map strip (columns df).
Proof.
  unfold columns, fillna, strip_columns. by rewrite !List.map_map.
Qed.

Lemma clean_distinct df :
  NoDup (List.map strip (columns df)) ->
  clean str_scalar df
  = Ok (List.map (clean_column str_scalar) (fillna (strip_columns df))).
Proof.
  intros Hnd. unfold clean.
  apply (clean_loop_closed (fillna (strip_columns df)) []).
  cbn [app]. by rewrite columns_prepared.
Qed.

Lemma clean_success_distinct df df' :
  clean str_scalar df = Ok df' -> NoDup (List.map strip (columns df)).
Proof.
  unfold clean. intros Hrun. rewrite <- columns_prepared.
  apply counts_NoDup. by apply (clean_loop_counts _ _ _ Hrun).
Qed.

(** Cleaning succeeds exactly when the column names are still distinct
    once trimmed.  It then returns each column under its trimmed name,
    missing values filled and, for a column of text, every value trimmed;
    otherwise it raises AttributeError. *)
Theorem clean_succeeds_iff_names_distinct df :
  (NoDup (List.map strip (columns df)) ->
   clean str_scalar df
   = Ok (List.map (clean_column str_scalar) (fillna (strip_columns df))))
  /\ (~ NoDup (List.map strip (columns df)) ->
      exists msg, clean str_scalar df = Raise (AttributeError msg)).
Proof.
  split; [apply clean_distinct|].
  intros Hdup. destruct (clean str_scalar df) as [df'|e] eqn:Hrun.
  - apply clean_success_distinct in Hrun. done.
  - unfold clean in Hrun. apply clean_loop_raises in Hrun.
    rewrite Hrun. by eexists.
Qed.

Lemma str_strip_astype_values s :
  s_values (str_strip (astype_str str_scalar s))
  = List.map (fun v => Str (strip (py_str str_scalar v))) (s_values s).
Proof. unfold str_strip, astype_str. cbn [s_values]. apply List.map_map. Qed.

Lemma fillna_series_all_present s :
  forallb notna (s_values s) = true -> fillna_series s = s.
Proof. intros H. unfold fillna_series. by rewrite H. Qed.

Lemma str_strip_astype_idemp s :
  str_strip (astype_str str_scalar (str_strip (astype_str str_scalar s)))
  = str_strip (astype_str str_scalar s).
Proof.
  unfold str_strip, astype_str. cbn [s_values]. f_equal.
  rewrite !List.map_map. apply List.map_ext. intros v.
  cbn [py_str]. by rewrite strip_idemp.
Qed.

Lemma fillna_series_idemp s :
  fillna_series (fillna_series s) = fillna_series s.
Proof.
  destruct (forallb notna (s_values s)) eqn:Hall.
  - by rewrite !(fillna_series_all_present s Hall).
  - assert (Hs : fillna_series s
                 = mkSeries object (List.map fill_value (s_values s))).
    { unfold fillna_series. by rewrite Hall. }
    rewrite Hs. apply fillna_series_all_present. cbn [s_values].
    apply forallb_forall. intros v Hv. apply in_map_iff in Hv.
    destruct Hv as (v0 & <- & _). by destruct v0.
Qed.

Lemma clean_one_map df :
  List.map (clean_column str_scalar) (fillna (strip_columns df))
  = List.map (clean_one str_scalar) df.
Proof. unfold fillna, strip_columns. by rewrite !List.map_map. Qed.

Lemma clean_one_idemp c :
  clean_one str_scalar (clean_one str_scalar c) = clean_one str_scalar c.
Proof.
  destruct c as [n s]. unfold clean_one, clean_column. cbn [fst snd].
  destruct (bool_decide (s_dtype (fillna_series s) = object)) eqn:Hobj.
  - cbn [fst snd]. rewrite strip_idemp.
    rewrite fillna_series_all_present.
    + rewrite bool_decide_eq_true_2 by reflexivity.
      by rewrite str_strip_astype_idemp.
    + rewrite str_strip_astype_values. apply forallb_forall.
      intros v Hv. apply in_map_iff in Hv. by destruct Hv as (v0 & <- & _).
  - cbn [fst snd]. rewrite strip_idemp, fillna_series_idemp.
    by rewrite Hobj.
Qed.

(** Cleaning a cleaned frame changes nothing. *)
Theorem clean_idempotent df df' :
  clean str_scalar df = Ok df' -> clean str_scalar df' = Ok df'.
Proof.
  intros Hrun. pose proof (clean_success_distinct _ _ Hrun) as Hnd.
  rewrite (clean_distinct df Hnd), clean_one_map in Hrun.
  injection Hrun as <-.
  assert (Hcols : columns (List.map (clean_one str_scalar) df)
                  = List.map strip (columns df)).
  { unfold columns. rewrite !List.map_map. apply List.map_ext.
    intros [n s]. unfold clean_one, clean_column. cbn [fst snd].
    by destruct (bool_decide _). }
  rewrite clean_distinct.
  - rewrite clean_one_map, List.map_map. f_equal.
    apply List.map_ext. intros c. apply clean_one_idemp.
  - rewrite Hcols, List.map_map.
    erewrite List.map_ext; [exact Hnd|]. intros n. apply strip_idemp.
Qed.

Lemma strip_nil : strip [] = [].
Proof. reflexivity. Qed.

Lemma forallb_notna_iff s :
  forallb notna (s_values s) = true <-> NaN ∉ s_values s.
Proof.
  rewrite forallb_forall. split.
  - intros H Hin. apply list_elem_of_In in Hin. by apply H in Hin.
  - intros H v Hv. destruct v; try reflexivity.
    exfalso. apply H. by apply list_elem_of_In.
Qed.

(** C6 (amended): cleaning trims every column name and leaves no cell
    missing.  A column that was text, or that held a missing value, ends
    as a column of text in which a missing cell has become the empty
    string, a text cell its trimmed text and a number the trimmed text
    of the number; so every cell of a column of text is a trimmed
    string.  A column of another type without a missing value keeps its
    type and its values as they were parsed. *)
Theorem clean_normalizes df df' :
  clean str_scalar df = Ok df' ->
  columns df' = List.map strip (columns df)
  /\ Forall trimmed (columns df')
  /\ Forall (fun c => filled (snd c)
                      /\ (s_dtype (snd c) = object -> stripped (snd c))) df'
  /\ length df' = length df
  /\ forall j name s, df !! j = Some (name, s) ->
       exists s', df' !! j = Some (strip name, s')
         /\ (forall i, s_values s !! i = Some NaN ->
                       s_values s' !! i = Some (Str []))
         /\ (s_dtype s = object \/ NaN ∈ s_values s ->
             s_dtype s' = object
             /\ s_values s'
                = List.map (fun v => match v with
                                     | NaN => Str []
                                     | Str t => Str (strip t)
                                     | Num x => Str (strip (str_scalar x))
                                     end) (s_values s))
         /\ (s_dtype s <> object -> NaN ∉ s_values s -> s' = s).
Proof.
  intros Hrun.
  destruct (clean_columns_spec str_scalar df df' Hrun)
    as (Hnames & Htrim & Hcells & _).
  split; [exact Hnames|]. split; [exact Htrim|]. split; [exact Hcells|].
  pose proof (clean_success_distinct _ _ Hrun) as Hnd.
  rewrite (clean_distinct df Hnd), clean_one_map in Hrun.
  injection Hrun as <-. split; [apply length_map|].
  intros j name s Hj. exists (snd (clean_one str_scalar (name, s))).
  assert (Htext : s_dtype s = object \/ NaN ∈ s_values s ->
            snd (clean_one str_scalar (name, s))
            = mkSeries object
                (List.map (fun v => match v with
                                    | NaN => Str []
                                    | Str t => Str (strip t)
                                    | Num x => Str (strip (str_scalar x))
                                    end) (s_values s))).
  { intros Hcase. unfold clean_one, clean_column, fillna_series.
    cbn [fst snd].
    destruct (forallb notna (s_values s)) eqn:Hall.
    - apply forallb_notna_iff in Hall.
      destruct Hcase as [Hobj|Hnan]; [|done].
      rewrite bool_decide_eq_true_2 by exact Hobj. cbn [snd].
      unfold str_strip, astype_str. cbn [s_values]. f_equal.
      rewrite List.map_map. apply List.map_ext_in. intros v Hv.
      destruct v; try reflexivity.
      exfalso. apply Hall. by apply list_elem_of_In.
    - cbn [s_dtype]. rewrite bool_decide_eq_true_2 by reflexivity.
      cbn [snd]. unfold str_strip, astype_str. cbn [s_values]. f_equal.
      rewrite !List.map_map. apply List.map_ext. intros v.
      by destruct v. }
  split; [|split; [|split]].
  - unfold DataFrame in *. rewrite lookup_map, Hj.
    cbn [fmap option_fmap option_map]. f_equal.
    unfold clean_one, clean_column. cbn [fst snd].
    by destruct (bool_decide _).
  - intros i Hi. rewrite Htext.
    + cbn [s_values]. rewrite lookup_map, Hi. reflexivity.
    + right. by eapply list_elem_of_lookup_2.
  - intros Hcase. by rewrite (Htext Hcase).
  - intros Hobj Hnan. apply forallb_notna_iff in Hnan.
    unfold clean_one, clean_column, fillna_series. cbn [fst snd].
    rewrite Hnan. by rewrite bool_decide_eq_false_2 by exact Hobj.
Qed.

End CleaningMore.

Lemma clean_succeeds_iff_names_distinct_witness :
  clean Example.str_Z More.spaced
  = Ok (List.map (clean_column Example.str_Z)
                 (fillna (strip_columns More.spaced)))
  /\ exists msg, clean Example.str_Z More.twice = Raise (AttributeError msg).
Proof.
  split.
  - refine (proj1 (clean_succeeds_iff_names_distinct Example.str_Z
                     More.spaced) _).
    apply (bool_decide_unpack _). by vm_compute.
  - refine (proj2 (clean_succeeds_iff_names_distinct Example.str_Z
                     More.twice) _).
    apply (bool_decide_unpack _). by vm_compute.
Defined.

Lemma clean_idempotent_witness :
  clean Example.str_Z More.spaced_cleaned = Ok More.spaced_cleaned.
Proof.
  exact (clean_idempotent Example.str_Z More.spaced More.spaced_cleaned
           eq_refl).
Defined.

Lemma clean_normalizes_witness :
  columns More.spaced_cleaned = List.map strip (columns More.spaced)
  /\ Forall trimmed (columns More.spaced_cleaned)
  /\ Forall (fun c => filled (snd c)
                      /\ (s_dtype (snd c) = object -> stripped (snd c)))
            More.spaced_cleaned
  /\ length More.spaced_cleaned = length More.spaced
  /\ forall j name s, More.spaced !! j = Some (name, s) ->
       exists s', More.spaced_cleaned !! j = Some (strip name, s')
         /\ (forall i, s_values s !! i = Some NaN ->
                       s_values s' !! i = Some (Str []))
         /\ (s_dtype s = object \/ NaN ∈ s_values s ->
             s_dtype s' = object
             /\ s_values s'
                = List.map (fun v => match v with
                                     | NaN => Str []
                                     | Str t => Str (strip t)
                                     | Num x => Str (strip (Example.str_Z x))
                                     end) (s_values s))
         /\ (s_dtype s <> object -> NaN ∉ s_values s -> s' = s).
Proof.
  exact (clean_normalizes Example.str_Z More.spaced More.spaced_cleaned
           eq_refl).
Defined.

(** ** The loader and the command line, on every input *)

Lemma clean_duplicate {scalar} (str_scalar : scalar -> str)
  (df : DataFrame scalar) :
  ~ NoDup (List.map strip (columns df)) -> clean str_scalar df = Raise no_dtype.
Proof.
  intros Hdup. destruct (clean str_scalar df) as [df'|e] eqn:Hrun.
  - apply clean_success_distinct in Hrun. done.
  - unfold clean in Hrun. apply clean_loop_raises in Hrun. by rewrite Hrun.
Qed.

Lemma columns_clean_one {scalar} (str_scalar : scalar -> str)
  (df : DataFrame scalar) :
  columns (List.map (clean_one str_scalar) df) = List.map strip (columns df).
Proof.
  unfold columns. rewrite !List.map_map. apply List.map_ext.
  intros [n s]. unfold clean_one, clean_column. cbn [fst snd].
  by destruct (bool_decide _).
Qed.

Lemma reads_only_refl (w : world) : reads_only w w.
Proof. split; [reflexivity|]. exists []. by rewrite app_nil_r. Qed.

Lemma reads_only_trans (w1 w2 w3 : world) :
  reads_only w1 w2 -> reads_only w2 w3 -> reads_only w1 w3.
Proof.
  intros (Hf1 & t1 & Ht1 & Hn1) (Hf2 & t2 & Ht2 & Hn2).
  split; [congruence|]. exists (t1 ++ t2). split.
  - by rewrite Ht2, Ht1, app_assoc.
  - by apply Forall_app.
Qed.

Lemma reads_only_log (ev : event) (w : world) :
  is_write ev = false -> reads_only w (log ev w).
Proof.
  intros Hev. split; [reflexivity|]. exists [ev].
  split; [reflexivity | by repeat constructor].
Qed.

Lemma looks_reasonable_not_empty {scalar} (df : DataFrame scalar) :
  looks_reasonable df = true -> df_empty df = false.
Proof.
  unfold looks_reasonable, df_empty.
  rewrite !andb_true_iff, !Nat.ltb_lt. intros [[Hc Hr] _].
  apply orb_false_iff. split; apply Nat.eqb_neq; lia.
Qed.

Lemma manual_parse_nonempty (content : str) (delimiter : char)
  (headers : list str) (data : list (list str)) :
  manual_parse content = Some (delimiter, headers, data) ->
  headers <> [] /\ data <> [].
Proof.
  unfold manual_parse.
  destruct (Nat.ltb _ 2); [discriminate|].
  destruct (nonempty_lines content) as [|first_line rest]; [discriminate|].
  cbv zeta. destruct (collect_rows _ _ _ _) as [|row rows]; [discriminate|].
  intros [= <- <- <-]. split; [|discriminate].
  intros H. apply (f_equal length) in H.
  rewrite length_split_fields in H. discriminate.
Qed.

Lemma DataFrame_of_rows_not_empty {scalar} (data : list (list str))
  (headers : list str) :
  headers <> [] -> data <> [] ->
  df_empty (DataFrame_of_rows (scalar:=scalar) data headers) = false.
Proof.
  intros Hh Hd. destruct headers as [|h hs]; [done|].
  destruct data as [|row rows]; [done|]. reflexivity.
Qed.

Section RunningMore.

Context {scalar : Type}.
Variable str_scalar : scalar -> str.
Variable fmt_scalar : scalar -> str.
Variable page_text : nat -> str.
Variable pd_read_csv : bytes -> encoding -> char -> result (DataFrame scalar).
Variable decode_utf8_ignore : bytes -> str.
Variable encode_utf8 : str -> bytes.
Variable Path_suffix : str -> str.
Variable Path_with_suffix : str -> str -> str.
Variable Path_stem : str -> str.
Variable str_lower : str -> str.
Variable can_write : str -> bool.
Variable strerror : str -> str.
Variable encode_error : str -> str.

Lemma read_csv_reads_only csv_file enc sep w :
  reads_only w (snd (read_csv pd_read_csv csv_file enc sep w)).
Proof.
  unfold read_csv. destruct (fs w !! csv_file); by apply reads_only_log.
Qed.

Lemma attempt_loop_inv csv_file l : forall w r w',
  attempt_loop pd_read_csv csv_file l w = (r, w') ->
  reads_only w w'
  /\ forall df, r = Ok (Some df) -> looks_reasonable df = true.
Proof.
  induction l as [|[enc d] l IH]; intros w r w' Hrun.
  - injection Hrun as <- <-. split; [apply reads_only_refl | discriminate].
  - cbn [attempt_loop] in Hrun.
    pose proof (read_csv_reads_only csv_file enc d w) as Hread.
    destruct (read_csv pd_read_csv csv_file enc d w) as [[df|e] w1].
    + destruct (looks_reasonable df) eqn:Hgood.
      * unfold bind, print, ret in Hrun. injection Hrun as <- <-. split.
        -- eapply reads_only_trans; [exact Hread|]. by apply reads_only_log.
        -- by intros df' [= <-].
      * apply IH in Hrun. destruct Hrun as [Hro Hdf]. split; [|exact Hdf].
        eapply reads_only_trans; [exact Hread | exact Hro].
    + destruct (skipped e).
      * apply IH in Hrun. destruct Hrun as [Hro Hdf]. split; [|exact Hdf].
        eapply reads_only_trans; [exact Hread | exact Hro].
      * injection Hrun as <- <-. split; [exact Hread | discriminate].
Qed.

Lemma manual_fallback_inv csv_file w r w' :
  manual_fallback decode_utf8_ignore csv_file w = (r, w') ->
  reads_only w w'
  /\ (forall e, r <> Raise e)
  /\ forall df : DataFrame scalar, r = Ok (Some df) -> df_empty df = false.
Proof.
  unfold manual_fallback, try_except, bind, open_read.
  destruct (fs w !! csv_file) as [content|].
  - destruct (manual_parse (decode_utf8_ignore content))
      as [[[d h] data]|] eqn:Hman.
    + unfold print, ret. intros [= <- <-]. split; [|split].
      * eapply reads_only_trans; by apply reads_only_log.
      * discriminate.
      * intros df [= <-].
        destruct (manual_parse_nonempty _ _ _ _ Hman) as [Hh Hd].
        by apply DataFrame_of_rows_not_empty.
    + unfold ret. intros [= <- <-]. split; [|split]; try discriminate.
      by apply reads_only_log.
  - unfold print, ret. intros [= <- <-]. split; [|split]; try discriminate.
    eapply reads_only_trans; by apply reads_only_log.
Qed.

(** The loader never writes: whatever the file and the parser do, it
    leaves every file as it was, and what it adds to the output are
    reads and printed lines. *)
Theorem loader_reads_only csv_file w :
  reads_only w
    (snd (repair_and_read_csv pd_read_csv decode_utf8_ignore csv_file w)).
Proof.
  unfold repair_and_read_csv, bind. rewrite encoding_loop_flat.
  destruct (attempt_loop pd_read_csv csv_file _ w) as [r w1] eqn:Hloop.
  apply attempt_loop_inv in Hloop. destruct Hloop as [Hro _].
  destruct r as [[df|]|e]; cbn [snd ret]; try exact Hro.
  destruct (manual_fallback decode_utf8_ignore csv_file w1) as [r2 w2] eqn:Hm.
  apply manual_fallback_inv in Hm. destruct Hm as [Hro2 _].
  cbn [snd]. eapply reads_only_trans; [exact Hro | exact Hro2].
Qed.

(** A frame the loader returns is never empty: it has a column and a
    row, so the check [df.empty] after the loader never fires. *)
Theorem loader_frame_not_empty csv_file w df w' :
  repair_and_read_csv pd_read_csv decode_utf8_ignore csv_file w
  = (Ok (Some df), w') ->
  df_empty df = false.
Proof.
  unfold repair_and_read_csv, bind. rewrite encoding_loop_flat.
  destruct (attempt_loop pd_read_csv csv_file _ w) as [r w1] eqn:Hloop.
  apply attempt_loop_inv in Hloop. destruct Hloop as [_ Hdf].
  destruct r as [[df0|]|e].
  - unfold ret. intros [= <- <-].
    by apply looks_reasonable_not_empty, Hdf.
  - intros Hm. apply manual_fallback_inv in Hm.
    destruct Hm as (_ & _ & Hne). by apply Hne.
  - discriminate.
Qed.

Lemma repair_inv csv_file w r w' :
  repair_and_read_csv pd_read_csv decode_utf8_ignore csv_file w = (r, w') ->
  reads_only w w'
  /\ forall df, r = Ok (Some df) -> df_empty df = false.
Proof.
  unfold repair_and_read_csv, bind. rewrite encoding_loop_flat.
  destruct (attempt_loop pd_read_csv csv_file _ w) as [r1 w1] eqn:Hloop.
  apply attempt_loop_inv in Hloop. destruct Hloop as [Hro Hdf].
  destruct r1 as [[df0|]|e].
  - unfold ret. intros [= <- <-]. split; [exact Hro|].
    intros df [= <-]. by apply looks_reasonable_not_empty, Hdf.
  - intros Hm. apply manual_fallback_inv in Hm.
    destruct Hm as (Hro2 & _ & Hne). split; [|exact Hne].
    eapply reads_only_trans; [exact Hro | exact Hro2].
  - intros [= <- <-]. split; [exact Hro | discriminate].
Qed.

Lemma create_html_from_csv_total csv_file table_id title w :
  exists html w',
    create_html_from_csv str_scalar fmt_scalar page_text pd_read_csv
      decode_utf8_ignore csv_file table_id title w = (Ok html, w')
    /\ reads_only w w'.
Proof.
  unfold create_html_from_csv, try_except, bind.
  destruct (repair_and_read_csv pd_read_csv decode_utf8_ignore csv_file w)
    as [r w1] eqn:Hrep.
  apply repair_inv in Hrep. destruct Hrep as [Hro _].
  destruct r as [[df|]|e]; unfold raise, ret, lift; eauto.
  destruct (df_empty df); eauto.
  destruct (clean str_scalar df) as [df'|e]; eauto.
  destruct (create_enhanced_html_template _ _ _ df' table_id title); eauto.
Qed.

(** [create_html_from_csv] never raises and never writes.  It returns the
    data page exactly when the loader returns a frame whose column names
    are distinct once trimmed; when the loader returns nothing, raises, or
    returns a frame with such a clash, it returns the error page of the
    corresponding exception. *)
Theorem create_html_from_csv_page_or_error csv_file table_id title w :
  let loaded :=
    repair_and_read_csv pd_read_csv decode_utf8_ignore csv_file w in
  create_html_from_csv str_scalar fmt_scalar page_text pd_read_csv
    decode_utf8_ignore csv_file table_id title w
  = (Ok match fst loaded with
        | Raise e => error_html e
        | Ok None => error_html unreadable
        | Ok (Some df) =>
            if bool_decide (NoDup (List.map strip (columns df)))
            then page_of str_scalar fmt_scalar page_text
                   (List.map (clean_one str_scalar) df) table_id title
            else error_html no_dtype
        end,
     snd loaded)
  /\ reads_only w (snd loaded).
Proof.
  cbv zeta. unfold create_html_from_csv, try_except, bind.
  destruct (repair_and_read_csv pd_read_csv decode_utf8_ignore csv_file w)
    as [r w1] eqn:Hrep.
  apply repair_inv in Hrep. destruct Hrep as [Hro Hne].
  cbn [fst snd]. split; [|exact Hro].
  destruct r as [[df|]|e]; try reflexivity.
  rewrite (Hne df eq_refl). unfold lift.
  destruct (decide (NoDup (List.map strip (columns df)))) as [Hnd|Hdup].
  - rewrite bool_decide_eq_true_2 by exact Hnd.
    rewrite (clean_distinct str_scalar df Hnd), clean_one_map.
    rewrite create_enhanced_html_template_run; [reflexivity|].
    by rewrite columns_clean_one.
  - rewrite bool_decide_eq_false_2 by exact Hdup.
    by rewrite (clean_duplicate str_scalar df Hdup).
Qed.

Lemma attempt_loop_first csv_file enc d l w r w' :
  attempt_loop pd_read_csv csv_file ((enc, d) :: l) w = (r, w') ->
  reads_only (log (ReadCsv csv_file enc d) w) w'.
Proof.
  cbn [attempt_loop].
  assert (Hread : snd (read_csv pd_read_csv csv_file enc d w)
                  = log (ReadCsv csv_file enc d) w).
  { unfold read_csv. by destruct (fs w !! csv_file). }
  destruct (read_csv pd_read_csv csv_file enc d w) as [[df|e] w1].
  - cbn [snd] in Hread. subst w1. destruct (looks_reasonable df).
    + unfold bind, print, ret. intros [= <- <-]. by apply reads_only_log.
    + intros Hrun. by apply attempt_loop_inv in Hrun as [Hro _].
  - cbn [snd] in Hread. subst w1. destruct (skipped e).
    + intros Hrun. by apply attempt_loop_inv in Hrun as [Hro _].
    + intros [= <- <-]. apply reads_only_refl.
Qed.

(** [create_html_from_csv] returns a page, having called the parser on
    the file at least once and written nothing. *)
Lemma create_html_from_csv_reads csv_file table_id title w :
  exists html w',
    create_html_from_csv str_scalar fmt_scalar page_text pd_read_csv
      decode_utf8_ignore csv_file table_id title w = (Ok html, w')
    /\ reads_only (log (ReadCsv csv_file utf_8 comma) w) w'.
Proof.
  unfold create_html_from_csv, try_except, bind.
  assert (Hrep : forall r w1,
            repair_and_read_csv pd_read_csv decode_utf8_ignore csv_file w
            = (r, w1) ->
            reads_only (log (ReadCsv csv_file utf_8 comma) w) w1).
  { intros r w1. unfold repair_and_read_csv, bind.
    rewrite encoding_loop_flat.
    destruct (attempt_loop pd_read_csv csv_file _ w) as [r1 w0] eqn:Hloop.
    apply attempt_loop_first in Hloop.
    destruct r1 as [[df0|]|e].
    - unfold ret. by intros [= <- <-].
    - intros Hm. apply manual_fallback_inv in Hm.
      destruct Hm as (Hro2 & _). by eapply reads_only_trans.
    - by intros [= <- <-]. }
  destruct (repair_and_read_csv pd_read_csv decode_utf8_ignore csv_file w)
    as [r w1].
  specialize (Hrep r w1 eq_refl).
  destruct r as [[df|]|e]; unfold raise, ret, lift; eauto.
  destruct (df_empty df); eauto.
  destruct (clean str_scalar df) as [df'|e]; eauto.
  destruct (create_enhanced_html_template _ _ _ df' table_id title); eauto.
Qed.

(** What [convert_csv_to_html] does once the page is made. *)
Lemma convert_body_run a content html w w2 :
  fs w !! input_file a = Some content ->
  str_lower (Path_suffix (input_file a)) = lit ".csv" ->
  create_html_from_csv str_scalar fmt_scalar page_text pd_read_csv
    decode_utf8_ignore (input_file a) (lit "data-table")
    (page_title Path_stem a)
    (log (Printed (lit "Reading CSV file: " ++ input_file a)) w)
  = (Ok html, w2) ->
  let out := output_path Path_with_suffix a in
  convert_body str_scalar fmt_scalar page_text pd_read_csv
    decode_utf8_ignore encode_utf8 Path_suffix Path_with_suffix Path_stem
    str_lower can_write strerror encode_error
    (input_file a) (output_file a) (title a) w
  = if can_write out
    then
      if encodable html
      then (Ok (Some out),
            mkWorld (<[out := encode_utf8 html]> (fs w2))
              (trace w2
               ++ [Printed (lit "Writing HTML file: " ++ out);
                   OpenWrite out;
                   Printed (mark_ok ++ lit " Successfully converted '"
                            ++ input_file a ++ lit "' to '" ++ out
                            ++ lit "'");
                   Printed (mark_open ++ lit " Open '" ++ out
                            ++ lit "' in your web browser to view the interactive table")]))
      else (Raise (UnicodeEncodeError (encode_error html)),
            mkWorld (<[out := []]> (fs w2))
              (trace w2
               ++ [Printed (lit "Writing HTML file: " ++ out);
                   OpenWrite out]))
    else (Raise (OSError (strerror out)),
          log (Printed (lit "Writing HTML file: " ++ out)) w2).
Proof.
  intros Hf Hext Hcreate out. unfold convert_body.
  rewrite bool_decide_eq_true_2 by (by rewrite Hf).
  rewrite bool_decide_eq_true_2 by exact Hext.
  fold (output_path Path_with_suffix a). fold out.
  fold (page_title Path_stem a).
  unfold bind at 1. unfold print at 1. unfold bind at 1.
  rewrite Hcreate.
  unfold bind at 1. unfold print at 1.
  unfold bind at 1. unfold open_write.
  destruct (can_write out); [|by run_world].
  destruct (encodable html); by run_world.
Qed.

(** Whatever the input, the program exits with 0 or 1.  With status 0
    the only file that changed is the output file, which holds the
    encoding of a page.  With status 1 either no file changed, or the
    output file was opened and the page could not be encoded: then the
    output file is empty, and no other file changed.  (Opening the empty
    path for writing fails.) *)
Theorem main_exit_status_and_files a w :
  can_write [] = false ->
  let out := output_path Path_with_suffix a in
  let r := main str_scalar fmt_scalar page_text pd_read_csv
             decode_utf8_ignore encode_utf8 Path_suffix Path_with_suffix
             Path_stem str_lower can_write strerror encode_error a w in
  (fst r = 0%Z /\ can_write out = true
   /\ exists html, encodable html = true
                   /\ fs (snd r) = <[out := encode_utf8 html]> (fs w))
  \/ (fst r = 1%Z
      /\ (fs (snd r) = fs w
          \/ (can_write out = true
              /\ fs (snd r) = <[out := []]> (fs w)
              /\ OpenWrite out ∈ trace (snd r)))).
Proof.
  intros Hempty out r. subst r. unfold main, convert_csv_to_html, try_except.
  destruct (fs w !! input_file a) as [content|] eqn:Hf.
  - destruct (decide (str_lower (Path_suffix (input_file a)) = lit ".csv"))
      as [Hext|Hext].
    + destruct (create_html_from_csv_total (input_file a) (lit "data-table")
                  (page_title Path_stem a)
                  (log (Printed (lit "Reading CSV file: " ++ input_file a)) w))
        as (html & w2 & Hcreate & Hfs & _).
      rewrite (convert_body_run a content html w w2 Hf Hext Hcreate).
      fold out. destruct (can_write out) eqn:Hw.
      * destruct (encodable html) eqn:Henc.
        -- left. destruct out as [|ch out'] eqn:Hout; [congruence|].
           cbn [fst snd fs]. split; [reflexivity|]. split; [reflexivity|].
           exists html. split; [exact Henc|]. by rewrite Hfs.
        -- right. run_world. split; [reflexivity|]. right.
           split; [reflexivity|]. split; [by rewrite Hfs|].
           rewrite elem_of_app. right.
           rewrite !elem_of_cons. right. by left.
      * right. run_world. split; [reflexivity|]. by left.
    + right. unfold convert_body.
      rewrite bool_decide_eq_true_2 by (by rewrite Hf).
      rewrite bool_decide_eq_false_2 by exact Hext. run_world.
      split; [reflexivity|]. by left.
  - right. unfold convert_body.
    rewrite bool_decide_eq_false_2 by (rewrite Hf; by intros [x Hx]).
    run_world. split; [reflexivity|]. by left.
Qed.

(** When the output file cannot be opened, the input is still read (the
    parser is called on it) and a page is made of it; then the program
    announces the writing, prints the message of the operating system as
    an error and exits with status 1.  No file has changed and nothing
    was written. *)
Theorem main_fails_when_output_unwritable a content w :
  fs w !! input_file a = Some content ->
  str_lower (Path_suffix (input_file a)) = lit ".csv" ->
  let out := output_path Path_with_suffix a in
  can_write out = false ->
  let r := main str_scalar fmt_scalar page_text pd_read_csv
             decode_utf8_ignore encode_utf8 Path_suffix Path_with_suffix
             Path_stem str_lower can_write strerror encode_error a w in
  fst r = 1%Z /\ fs (snd r) = fs w
  /\ exists reads,
       Forall (fun ev => is_write ev = false) reads
       /\ trace (snd r)
          = trace w
            ++ [Printed (lit "Reading CSV file: " ++ input_file a);
                ReadCsv (input_file a) utf_8 comma]
            ++ reads
            ++ [Printed (lit "Writing HTML file: " ++ out);
                Printed (mark_error ++ lit " Error: " ++ strerror out)].
Proof.
  intros Hf Hext out Hw r. subst r.
  unfold main, convert_csv_to_html, try_except.
  destruct (create_html_from_csv_reads (input_file a) (lit "data-table")
              (page_title Path_stem a)
              (log (Printed (lit "Reading CSV file: " ++ input_file a)) w))
    as (html & w2 & Hcreate & Hfs & reads & Htrace & Hreads).
  rewrite (convert_body_run a content html w w2 Hf Hext Hcreate).
  fold out. rewrite Hw. run_world.
  split; [reflexivity|]. split; [exact Hfs|].
  exists reads. split; [exact Hreads|].
  rewrite Htrace. cbn [log trace]. by rewrite <- !app_assoc.
Qed.

Lemma repair_accepts csv_file content w k enc delimiter df :
  fs w !! csv_file = Some content ->
  attempts !! k = Some (enc, delimiter) ->
  Forall (fun a => rejected (answer pd_read_csv content a) = true)
         (take k attempts) ->
  pd_read_csv content enc delimiter = Ok df ->
  looks_reasonable df = true ->
  repair_and_read_csv pd_read_csv decode_utf8_ignore csv_file w
  = (Ok (Some df),
     mkWorld (fs w)
       (trace w ++ read_events csv_file (take (S k) attempts)
        ++ [Printed (read_message enc delimiter)])).
Proof.
  intros Hf Hk Hrej Hok Hgood.
  unfold repair_and_read_csv, bind. rewrite encoding_loop_flat.
  change (flat_map _ encodings) with attempts.
  rewrite (take_S_r _ _ _ Hk).
  rewrite <- (take_drop_middle attempts k (enc, delimiter) Hk) at 1.
  by rewrite (attempt_loop_accepts _ _ content _ _ df).
Qed.

(** The whole conversion of a file the parser accepts, when the page can
    be encoded (it holds no lone surrogate, which a title or a file name
    taken from the command line may bring): the program exits with
    status 0 and the output file holds the page of the cleaned table,
    under the title given or derived from the file name. *)
Theorem main_converts_parsed_file a content w k enc delimiter df :
  fs w !! input_file a = Some content ->
  str_lower (Path_suffix (input_file a)) = lit ".csv" ->
  attempts !! k = Some (enc, delimiter) ->
  Forall (fun t => rejected (answer pd_read_csv content t) = true)
         (take k attempts) ->
  pd_read_csv content enc delimiter = Ok df ->
  looks_reasonable df = true ->
  NoDup (List.map strip (columns df)) ->
  let out := output_path Path_with_suffix a in
  let page := page_of str_scalar fmt_scalar page_text
                (List.map (clean_one str_scalar) df)
                (lit "data-table") (page_title Path_stem a) in
  can_write out = true -> out <> [] ->
  encodable page = true ->
  let r := main str_scalar fmt_scalar page_text pd_read_csv
             decode_utf8_ignore encode_utf8 Path_suffix Path_with_suffix
             Path_stem str_lower can_write strerror encode_error a w in
  fst r = 0%Z
  /\ fs (snd r) = <[out := encode_utf8 page]> (fs w).
Proof.
  intros Hf Hext Hk Hrej Hok Hgood Hnd out page Hw Hout Henc r. subst r.
  unfold main, convert_csv_to_html, try_except.
  assert (Hcreate :
    create_html_from_csv str_scalar fmt_scalar page_text pd_read_csv
      decode_utf8_ignore (input_file a) (lit "data-table")
      (page_title Path_stem a)
      (log (Printed (lit "Reading CSV file: " ++ input_file a)) w)
    = (Ok (page_of str_scalar fmt_scalar page_text
             (List.map (clean_one str_scalar) df)
             (lit "data-table") (page_title Path_stem a)),
       mkWorld (fs w)
         (trace (log (Printed (lit "Reading CSV file: " ++ input_file a)) w)
          ++ read_events (input_file a) (take (S k) attempts)
          ++ [Printed (read_message enc delimiter)]))).
  { unfold create_html_from_csv, try_except, bind.
    rewrite (repair_accepts _ content _ k enc delimiter df) by done.
    rewrite (looks_reasonable_not_empty df Hgood). unfold lift.
    rewrite (clean_distinct str_scalar df Hnd), clean_one_map.
    rewrite create_enhanced_html_template_run; [reflexivity|].
    by rewrite columns_clean_one. }
  rewrite (convert_body_run a content _ w _ Hf Hext Hcreate).
  fold out. fold page. rewrite Hw, Henc. clearbody out.
  destruct out as [|ch out']; [done|]. by cbn [fst snd fs].
Qed.

Lemma attempt_loop_raises csv_file content enc d e after before : forall w,
  fs w !! csv_file = Some content ->
  Forall (fun a => rejected (answer pd_read_csv content a) = true) before ->
  pd_read_csv content enc d = Raise e -> skipped e = false ->
  attempt_loop pd_read_csv csv_file (before ++ (enc, d) :: after) w
  = (Raise e,
     mkWorld (fs w)
       (trace w ++ read_events csv_file (before ++ [(enc, d)]))).
Proof.
  induction before as [|[enc0 d0] before IH]; intros w Hf Hall Hraise Hskip.
  - cbn [app attempt_loop].
    rewrite (read_csv_existing _ _ _ _ _ _ Hf), Hraise, Hskip. by run_world.
  - apply Forall_cons in Hall. destruct Hall as [Hrej Hall].
    cbn [app attempt_loop].
    rewrite (read_csv_existing _ _ _ _ _ _ Hf).
    unfold answer, rejected in Hrej. cbn [fst snd] in Hrej.
    assert (Hnext : attempt_loop pd_read_csv csv_file
                      (before ++ (enc, d) :: after)
                      (log (ReadCsv csv_file enc0 d0) w)
                    = (Raise e,
                       mkWorld (fs w)
                         (trace w
                          ++ read_events csv_file
                               (((enc0, d0) :: before) ++ [(enc, d)])))).
    { rewrite IH by done. run_world. reflexivity. }
    destruct (pd_read_csv content enc0 d0) as [df0|e0].
    + apply negb_true_iff in Hrej. by rewrite Hrej.
    + by rewrite Hrej.
Qed.

(** An exception of the parser other than the three the loop skips ends
    the search at once: the loader raises it without trying a later
    attempt or the manual parser, and the page returned is the error page
    of that exception. *)
Theorem loader_propagates_other_errors csv_file table_id title content w k
  enc delimiter e :
  fs w !! csv_file = Some content ->
  attempts !! k = Some (enc, delimiter) ->
  Forall (fun a => rejected (answer pd_read_csv content a) = true)
         (take k attempts) ->
  pd_read_csv content enc delimiter = Raise e -> skipped e = false ->
  let w' := mkWorld (fs w)
              (trace w ++ read_events csv_file (take (S k) attempts)) in
  repair_and_read_csv pd_read_csv decode_utf8_ignore csv_file w
  = (Raise e, w')
  /\ create_html_from_csv str_scalar fmt_scalar page_text pd_read_csv
       decode_utf8_ignore csv_file table_id title w
     = (Ok (error_html e), w').
Proof.
  intros Hf Hk Hrej Hraise Hskip w'.
  assert (Hrep : repair_and_read_csv pd_read_csv decode_utf8_ignore csv_file w
                 = (Raise e, w')).
  { unfold repair_and_read_csv, bind. rewrite encoding_loop_flat.
    change (flat_map _ encodings) with attempts. subst w'.
    rewrite (take_S_r _ _ _ Hk).
    rewrite <- (take_drop_middle attempts k (enc, delimiter) Hk) at 1.
    by rewrite (attempt_loop_raises _ content _ _ e). }
  split; [exact Hrep|].
  unfold create_html_from_csv, try_except, bind. by rewrite Hrep.
Qed.

(** When every attempt is rejected and the manual parser recovers rows,
    the loader returns the frame of those rows, after the sixteen reads
    and one reading of the file as text. *)
Theorem loader_falls_back_to_manual_parser csv_file content w delimiter
  headers data :
  fs w !! csv_file = Some content ->
  Forall (fun a => rejected (answer pd_read_csv content a) = true) attempts ->
  manual_parse (decode_utf8_ignore content) = Some (delimiter, headers, data) ->
  repair_and_read_csv pd_read_csv decode_utf8_ignore csv_file w
  = (Ok (Some (DataFrame_of_rows data headers)),
     mkWorld (fs w)
       (trace w ++ read_events csv_file attempts
        ++ [OpenRead csv_file; Printed (manual_message delimiter)])).
Proof.
  intros Hf Hrej Hman.
  unfold repair_and_read_csv, bind. rewrite encoding_loop_flat.
  change (flat_map _ encodings) with attempts.
  rewrite (attempt_loop_rejected _ _ content) by done.
  unfold manual_fallback, try_except, bind, open_read. cbn [fs].
  rewrite Hf, Hman. by run_world.
Qed.

End RunningMore.


Lemma loader_frame_not_empty_witness : df_empty Example.parsed = false.
Proof.
  refine (loader_frame_not_empty Example.parse Example.decode
            (lit "data.csv") Example.start Example.parsed _ _).
  vm_compute. reflexivity.
Defined.

Lemma main_exit_status_and_files_witness :
  let a := mkArgs (lit "semi.csv") None None in
  let out := output_path Example.with_suffix a in
  let r := main Example.str_Z Example.str_Z Example.no_text Example.parse
             Example.decode Example.encode Example.extension
             Example.with_suffix Example.stem Example.lower More.writable
             Example.os_message Example.codec_message a More.start in
  (fst r = 0%Z /\ More.writable out = true
   /\ exists html, encodable html = true
                   /\ fs (snd r) = <[out := Example.encode html]> More.disk)
  \/ (fst r = 1%Z
      /\ (fs (snd r) = More.disk
          \/ (More.writable out = true
              /\ fs (snd r) = <[out := []]> More.disk
              /\ OpenWrite out ∈ trace (snd r)))).
Proof.
  exact (main_exit_status_and_files Example.str_Z Example.str_Z
           Example.no_text Example.parse Example.decode Example.encode
           Example.extension Example.with_suffix Example.stem Example.lower
           More.writable Example.os_message Example.codec_message
           (mkArgs (lit "semi.csv") None None) More.start eq_refl).
Defined.

Lemma main_fails_when_output_unwritable_witness :
  let a := mkArgs (lit "locked.csv") None None in
  let r := main Example.str_Z Example.str_Z Example.no_text Example.parse
             Example.decode Example.encode Example.extension
             Example.with_suffix Example.stem Example.lower More.writable
             Example.os_message Example.codec_message a More.start in
  fst r = 1%Z /\ fs (snd r) = More.disk
  /\ exists reads,
       Forall (fun ev => is_write ev = false) reads
       /\ trace (snd r)
          = [Printed (lit "Reading CSV file: locked.csv");
             ReadCsv (lit "locked.csv") utf_8 comma]
            ++ reads
            ++ [Printed (lit "Writing HTML file: locked.html");
                Printed (mark_error ++ lit " Error: "
                         ++ Example.os_message (lit "locked.html"))].
Proof.
  refine (main_fails_when_output_unwritable Example.str_Z Example.str_Z
            Example.no_text Example.parse Example.decode Example.encode
            Example.extension Example.with_suffix Example.stem Example.lower
            More.writable Example.os_message Example.codec_message
            (mkArgs (lit "locked.csv") None None)
            More.locked_csv More.start _ _ _).
  - by vm_compute.
  - reflexivity.
  - reflexivity.
Defined.

Lemma main_converts_parsed_file_witness :
  let a := mkArgs (lit "data.csv") None (Some (lit "Numbers")) in
  let r := Example.run_main a in
  fst r = 0%Z
  /\ fs (snd r)
     = <[lit "data.html" :=
           Example.encode
             (page_of Example.str_Z Example.str_Z Example.no_text
                (List.map (clean_one Example.str_Z) Example.parsed)
                (lit "data-table") (lit "Numbers"))]> Example.disk.
Proof.
  refine (main_converts_parsed_file Example.str_Z Example.str_Z
            Example.no_text Example.parse Example.decode Example.encode
            Example.extension Example.with_suffix Example.stem Example.lower
            Example.writable Example.os_message Example.codec_message
            (mkArgs (lit "data.csv") None (Some (lit "Numbers")))
            Example.data_csv Example.start 1 utf_8 semicolon Example.parsed
            _ _ _ _ _ _ _ _ _ _).
  - by vm_compute.
  - reflexivity.
  - reflexivity.
  - repeat constructor.
  - reflexivity.
  - reflexivity.
  - apply (bool_decide_unpack _). by vm_compute.
  - reflexivity.
  - by vm_compute.
  - by vm_compute.
Defined.

Lemma loader_propagates_other_errors_witness :
  let w' := mkWorld More.disk
              (read_events (lit "semi.csv")
                 [(utf_8, comma); (utf_8, semicolon); (utf_8, tab)]) in
  repair_and_read_csv More.failing Example.decode (lit "semi.csv") More.start
  = (Raise (OSError (lit "read error")), w')
  /\ create_html_from_csv Example.str_Z Example.str_Z Example.no_text
       More.failing Example.decode (lit "semi.csv") (lit "data-table")
       (lit "t") More.start
     = (Ok (error_html (OSError (lit "read error"))), w').
Proof.
  refine (loader_propagates_other_errors Example.str_Z Example.str_Z
            Example.no_text More.failing Example.decode (lit "semi.csv")
            (lit "data-table") (lit "t") More.semi_csv More.start 2 utf_8 tab
            (OSError (lit "read error")) _ _ _ _ _).
  - by vm_compute.
  - reflexivity.
  - repeat constructor.
  - reflexivity.
  - reflexivity.
Defined.

Lemma loader_falls_back_to_manual_parser_witness :
  repair_and_read_csv More.one_column Example.decode (lit "semi.csv")
    More.start
  = (Ok (Some (DataFrame_of_rows [[lit "4"; lit "5"]] [lit "a"; lit "b"])),
     mkWorld More.disk
       (read_events (lit "semi.csv") attempts
        ++ [OpenRead (lit "semi.csv"); Printed (manual_message semicolon)])).
Proof.
  refine (loader_falls_back_to_manual_parser More.one_column Example.decode
            (lit "semi.csv") More.semi_csv More.start semicolon
            [lit "a"; lit "b"] [[lit "4"; lit "5"]] _ _ _).
  - by vm_compute.
  - repeat constructor.
  - reflexivity.
Defined.

(** ** The script of the page *)

Lemma filter_filter {A} (P Q : A -> bool) (l : list A) :
  List.filter P (List.filter Q l) = List.filter (fun x => Q x && P x) l.
Proof.
  induction l as [|x l IH]; [reflexivity|]. cbn [List.filter].
  destruct (Q x); cbn [List.filter andb]; [|exact IH].
  destruct (P x); by rewrite IH.
Qed.

Lemma Forall_filter_keep {A} (R : A -> Prop) (P : A -> bool) (l : list A) :
  Forall R l -> Forall R (List.filter P l).
Proof.
  induction 1 as [|x l Hx _ IH]; [constructor|]. cbn [List.filter].
  destruct (P x); [by constructor | exact IH].
Qed.

Lemma sublist_filter_list {A} (P : A -> bool) (l : list A) :
  sublist (List.filter P l) l.
Proof.
  induction l as [|x l IH]; [constructor|]. cbn [List.filter].
  destruct (P x); by constructor.
Qed.

Lemma filter_column_closed (i n : nat) (v : str) (rows : list (list str)) :
  Forall (fun row => length row = n) rows -> (i < n)%nat ->
  filter_column i v rows
  = Some (List.filter (fun row => bool_decide (js_trim (nth i row []) = v))
                      rows).
Proof.
  intros Hall Hi. induction Hall as [|row rows Hrow _ IH]; [reflexivity|].
  cbn [filter_column List.filter].
  destruct (nth_lookup_or_length row i []) as [Hl|Hl]; [|lia].
  rewrite Hl, IH. reflexivity.
Qed.

Lemma filter_column_sublist (i : nat) (v : str) (rows kept : list (list str)) :
  filter_column i v rows = Some kept -> sublist kept rows.
Proof.
  revert kept. induction rows as [|row rows IH]; intros kept.
  - intros [= <-]. constructor.
  - cbn [filter_column]. destruct (row !! i) as [cell|]; [|discriminate].
    destruct (filter_column i v rows) as [kept'|]; [|discriminate].
    intros [= <-]. specialize (IH kept' eq_refl).
    destruct (bool_decide _); by constructor.
Qed.

Lemma passes_select_active (row : list str) (i : nat) (v : str) :
  truthy v = true ->
  passes_select row (i, v) = bool_decide (js_trim (nth i row []) = v).
Proof. intros Hv. unfold passes_select. cbn [fst snd]. by rewrite Hv. Qed.

Lemma passes_select_inactive (row : list str) (i : nat) (v : str) :
  truthy v = false -> passes_select row (i, v) = true.
Proof. intros Hv. unfold passes_select. cbn [fst snd]. by rewrite Hv. Qed.

Lemma select_loop_closed (n : nat) (selects : list (nat * str)) :
  Forall (fun sel => truthy (snd sel) = true -> (fst sel < n)%nat) selects ->
  forall rows, Forall (fun row => length row = n) rows ->
  select_loop selects rows
  = Some (List.filter (fun row => forallb (passes_select row) selects) rows).
Proof.
  induction 1 as [|[i v] selects Hsel _ IH]; intros rows Hrows.
  - cbn [select_loop forallb]. f_equal. induction rows as [|r rows IHr];
      [reflexivity|]. cbn [List.filter]. f_equal. apply IHr.
    by apply Forall_cons in Hrows as [_ ?].
  - cbn [select_loop forallb]. cbn [fst snd] in Hsel.
    destruct (truthy v) eqn:Hv.
    + rewrite (filter_column_closed i n) by auto.
      rewrite IH by (by apply Forall_filter_keep).
      rewrite filter_filter. f_equal. apply List.filter_ext. intros row.
      by rewrite (passes_select_active row i v Hv).
    + rewrite IH by done. f_equal. apply List.filter_ext. intros row.
      by rewrite (passes_select_inactive row i v Hv).
Qed.

Lemma select_loop_sublist (selects : list (nat * str)) :
  forall rows kept, select_loop selects rows = Some kept -> sublist kept rows.
Proof.
  induction selects as [|[i v] selects IH]; intros rows kept.
  - intros [= <-]. reflexivity.
  - cbn [select_loop]. destruct (truthy v); [|apply IH].
    destruct (filter_column i v rows) as [rows'|] eqn:Hcol; [|discriminate].
    intros Hrun. apply IH in Hrun. apply filter_column_sublist in Hcol.
    by etrans.
Qed.

Lemma quoted_body_inj (t1 t2 rest1 rest2 : str) :
  head rest1 <> Some dquote -> head rest2 <> Some dquote ->
  flat_map (fun c => if c =? dquote then [dquote; dquote] else [c]) t1
  ++ dquote :: rest1
  = flat_map (fun c => if c =? dquote then [dquote; dquote] else [c]) t2
    ++ dquote :: rest2 ->
  t1 = t2 /\ rest1 = rest2.
Proof.
  intros H1 H2. revert t2.
  induction t1 as [|c1 t1 IH]; intros [|c2 t2]; cbn [flat_map app].
  - by intros [= ->].
  - destruct (N.eqb_spec c2 dquote) as [->|Hc2]; cbn [app]; intros Heq.
    + injection Heq as Heq. rewrite Heq in H1. by cbn in H1.
    + injection Heq as Heq _. congruence.
  - destruct (N.eqb_spec c1 dquote) as [->|Hc1]; cbn [app]; intros Heq.
    + injection Heq as Heq. rewrite <- Heq in H2. by cbn in H2.
    + injection Heq as Heq _. congruence.
  - destruct (N.eqb_spec c1 dquote) as [->|Hc1];
      destruct (N.eqb_spec c2 dquote) as [->|Hc2]; cbn [app]; intros Heq.
    + injection Heq as Heq. apply IH in Heq. destruct Heq as [-> ->]. done.
    + injection Heq as Heq _. congruence.
    + injection Heq as Heq _. congruence.
    + injection Heq as -> Heq. apply IH in Heq. destruct Heq as [-> ->]. done.
Qed.

Lemma join_quoted_cons (t : str) (row : list str) :
  join [comma] (List.map csv_quote (t :: row))
  = dquote
    :: flat_map (fun c => if c =? dquote then [dquote; dquote] else [c]) t
       ++ dquote
          :: match row with
             | [] => []
             | _ :: _ => comma :: join [comma] (List.map csv_quote row)
             end.
Proof.
  destruct row as [|u row]; cbn [List.map join]; unfold csv_quote at 1;
    cbn [app]; by rewrite <- ?app_assoc.
Qed.

(** Two rows export to the same line only when they hold the same
    cells. *)
Lemma export_line_injective (row1 row2 : list str) :
  join [comma] (List.map csv_quote row1)
  = join [comma] (List.map csv_quote row2) ->
  row1 = row2.
Proof.
  revert row2. induction row1 as [|t1 row1 IH]; intros [|t2 row2]; auto.
  - rewrite join_quoted_cons. discriminate.
  - rewrite join_quoted_cons. discriminate.
  - rewrite !join_quoted_cons. intros Heq. injection Heq as Heq.
    apply quoted_body_inj in Heq.
    + destruct Heq as [-> Htail]. f_equal. apply IH.
      destruct row1 as [|u1 row1]; destruct row2 as [|u2 row2];
        try discriminate; [reflexivity|].
      by injection Htail.
    + by destruct row1.
    + by destruct row2.
Qed.

Lemma join_cons_tail (sep x : str) (l : list str) :
  join sep (x :: l)
  = x ++ match l with [] => [] | _ :: _ => sep ++ join sep l end.
Proof. destruct l; cbn [join]; by rewrite ?app_nil_r. Qed.

Lemma export_line_cons (c : str) (cells : list str) (rest : str) :
  export_line (c :: cells) ++ rest
  = dquote
    :: flat_map (fun c => if c =? dquote then [dquote; dquote] else [c]) c
       ++ dquote
          :: match cells with
             | [] => rest
             | _ :: _ => comma :: export_line cells ++ rest
             end.
Proof.
  unfold export_line. rewrite join_quoted_cons. cbn [app].
  rewrite <- app_assoc. cbn [app]. by destruct cells.
Qed.

Lemma rows_below_cons (c : str) (cells : list str) (rows : list (list str)) :
  rows_below ((c :: cells) :: rows)
  = newline
    :: dquote
       :: flat_map (fun c => if c =? dquote then [dquote; dquote] else [c]) c
          ++ dquote :: after_cell cells rows.
Proof.
  unfold rows_below at 1. cbn [List.map]. rewrite join_cons_tail.
  assert (Htail : match List.map export_line rows with
                  | [] => []
                  | _ :: _ =>
                      [newline] ++ join [newline] (List.map export_line rows)
                  end = rows_below rows) by (by destruct rows).
  rewrite Htail, export_line_cons. reflexivity.
Qed.

Lemma after_cell_cons (c : str) (cells : list str) (rows : list (list str)) :
  after_cell (c :: cells) rows
  = comma
    :: dquote
       :: flat_map (fun c => if c =? dquote then [dquote; dquote] else [c]) c
          ++ dquote :: after_cell cells rows.
Proof. unfold after_cell at 1. by rewrite export_line_cons. Qed.

Lemma after_cell_head (cells : list str) (rows : list (list str)) :
  head (after_cell cells rows) <> Some dquote.
Proof. destruct cells; [destruct rows|]; discriminate. Qed.

Lemma after_cell_inj (rows1 : list (list str)) :
  forall cells1 cells2 rows2,
    Forall (fun row => row <> []) rows1 ->
    Forall (fun row => row <> []) rows2 ->
    after_cell cells1 rows1 = after_cell cells2 rows2 ->
    cells1 = cells2 /\ rows1 = rows2.
Proof.
  induction rows1 as [|row1 rows1 IHrows];
    induction cells1 as [|c1 cells1 IHcells];
    intros cells2 rows2 Hne1 Hne2 Heq.
  - destruct cells2 as [|c2 cells2]; [|discriminate].
    destruct rows2 as [|row2 rows2]; [done | discriminate].
  - rewrite after_cell_cons in Heq.
    destruct cells2 as [|c2 cells2].
    + destruct rows2 as [|row2 rows2]; discriminate.
    + rewrite after_cell_cons in Heq. injection Heq as Heq.
      apply quoted_body_inj in Heq; try apply after_cell_head.
      destruct Heq as [-> Heq].
      destruct (IHcells _ _ Hne1 Hne2 Heq) as [-> ->]. done.
  - apply Forall_cons in Hne1. destruct Hne1 as [Hrow1 Hne1].
    destruct row1 as [|c cells]; [done|].
    change (after_cell [] ((c :: cells) :: rows1))
      with (rows_below ((c :: cells) :: rows1)) in Heq.
    rewrite rows_below_cons in Heq.
    destruct cells2 as [|c2 cells2]; [|discriminate].
    destruct rows2 as [|row2 rows2]; [discriminate|].
    apply Forall_cons in Hne2. destruct Hne2 as [Hrow2 Hne2].
    destruct row2 as [|c' cells']; [done|].
    change (after_cell [] ((c' :: cells') :: rows2))
      with (rows_below ((c' :: cells') :: rows2)) in Heq.
    rewrite rows_below_cons in Heq. injection Heq as Heq.
    apply quoted_body_inj in Heq; try apply after_cell_head.
    destruct Heq as [-> Heq].
    destruct (IHrows _ _ _ Hne1 Hne2 Heq) as [-> ->]. done.
  - rewrite after_cell_cons in Heq.
    destruct cells2 as [|c2 cells2].
    + destruct rows2 as [|row2 rows2]; discriminate.
    + rewrite after_cell_cons in Heq. injection Heq as Heq.
      apply quoted_body_inj in Heq; try apply after_cell_head.
      destruct Heq as [-> Heq].
      destruct (IHcells _ _ Hne1 Hne2 Heq) as [-> ->]. done.
Qed.

(** Under the same header, two selections of rows export to the same
    text only when they are the same rows with the same cells: the
    quoting of the data lines loses nothing, whatever quotes, commas and
    line breaks the cells contain. *)
Theorem exportToCSV_injective (headers : list str)
  (rows1 rows2 : list (list str)) :
  Forall (fun row => row <> []) rows1 ->
  Forall (fun row => row <> []) rows2 ->
  exportToCSV headers rows1 = exportToCSV headers rows2 ->
  rows1 = rows2.
Proof.
  intros Hne1 Hne2. unfold exportToCSV.
  change (List.map (fun row => join [comma] (List.map csv_quote row)) ?l)
    with (List.map export_line l).
  rewrite !join_cons_tail.
  assert (Htail : forall rows,
            match List.map export_line rows with
            | [] => []
            | _ :: _ =>
                [newline] ++ join [newline] (List.map export_line rows)
            end = after_cell [] rows) by (by intros []).
  rewrite !Htail. intros Heq. apply app_inv_head in Heq.
  by destruct (after_cell_inj _ _ _ _ Hne1 Hne2 Heq).
Qed.

Section ScriptProperties.

Variable toLowerCase : str -> str.

(** On a table whose rows all have n cells, with every active dropdown
    on a column below n, [applyFilters] does not throw and shows, in
    their original order, exactly the rows that equal every active
    dropdown in its column (cell text trimmed) and, when the search box
    is not empty, hold the lower-cased search text in some lower-cased
    cell. *)
Theorem applyFilters_shows_rows_passing_all (search_value : str)
  (selects : list (nat * str)) (originalRows : list (list str)) (n : nat) :
  Forall (fun row => length row = n) originalRows ->
  Forall (fun sel => truthy (snd sel) = true -> (fst sel < n)%nat) selects ->
  applyFilters toLowerCase search_value selects originalRows
  = Some (List.filter
            (fun row =>
               forallb (passes_select row) selects
               && (negb (truthy (toLowerCase search_value))
                   || matches_search toLowerCase
                        (toLowerCase search_value) row))
            originalRows).
Proof.
  intros Hrows Hsel. unfold applyFilters.
  rewrite (select_loop_closed n) by done. f_equal.
  destruct (truthy (toLowerCase search_value)); cbn [negb orb].
  - apply filter_filter.
  - apply List.filter_ext. intros row. by rewrite andb_true_r.
Qed.

(** Whatever [applyFilters] shows is a selection of the original rows in
    their original order, so the count it reports never exceeds the
    total. *)
Theorem applyFilters_selects_original_rows (search_value : str)
  (selects : list (nat * str)) (originalRows shown : list (list str)) :
  applyFilters toLowerCase search_value selects originalRows = Some shown ->
  sublist shown originalRows /\ (length shown <= length originalRows)%nat.
Proof.
  unfold applyFilters.
  destruct (select_loop selects originalRows) as [rows|] eqn:Hsel;
    [|discriminate].
  intros [= <-]. apply select_loop_sublist in Hsel.
  assert (Hsub : sublist
                   (if truthy (toLowerCase search_value)
                    then List.filter
                           (matches_search toLowerCase
                              (toLowerCase search_value)) rows
                    else rows) originalRows).
  { destruct (truthy _); [|exact Hsel].
    etrans; [apply sublist_filter_list | exact Hsel]. }
  split; [exact Hsub | by apply sublist_length].
Qed.

(** With every dropdown on All and nothing to search for, [applyFilters]
    shows every row, whatever the shape of the table. *)
Theorem applyFilters_without_filters_shows_all (search_value : str)
  (selects : list (nat * str)) (originalRows : list (list str)) :
  Forall (fun sel => snd sel = []) selects ->
  toLowerCase search_value = [] ->
  applyFilters toLowerCase search_value selects originalRows
  = Some originalRows.
Proof.
  intros Hsel Hsearch. unfold applyFilters. rewrite Hsearch.
  assert (Hloop : select_loop selects originalRows = Some originalRows).
  { induction Hsel as [|[i v] selects Hv _ IH]; [reflexivity|].
    cbn [select_loop]. cbn [snd] in Hv. by rewrite Hv. }
  by rewrite Hloop.
Qed.

End ScriptProperties.

Lemma applyFilters_shows_rows_passing_all_witness :
  applyFilters Example.lower (lit "ANN") [(0%nat, []); (1%nat, lit "Rome")]
    More.cells
  = Some [[lit "Ann"; lit "Rome"]].
Proof.
  refine (applyFilters_shows_rows_passing_all Example.lower (lit "ANN")
            [(0%nat, []); (1%nat, lit "Rome")] More.cells 2 _ _).
  - by repeat constructor.
  - repeat constructor; cbn; lia.
Defined.

Lemma applyFilters_selects_original_rows_witness :
  sublist [[lit "bob"; lit "Rome"]; [lit "Ann"; lit "Rome"]] More.cells
  /\ (length [[lit "bob"; lit "Rome"]; [lit "Ann"; lit "Rome"]]
      <= length More.cells)%nat.
Proof.
  exact (applyFilters_selects_original_rows Example.lower []
           [(1%nat, lit "Rome")] More.cells
           [[lit "bob"; lit "Rome"]; [lit "Ann"; lit "Rome"]] eq_refl).
Defined.

Lemma applyFilters_without_filters_shows_all_witness :
  applyFilters Example.lower [] [(0%nat, []); (1%nat, [])] More.cells
  = Some More.cells.
Proof.
  refine (applyFilters_without_filters_shows_all Example.lower []
            [(0%nat, []); (1%nat, [])] More.cells _ _).
  - by repeat constructor.
  - reflexivity.
Defined.

Lemma exportToCSV_injective_witness :
  More.cells = List.map (List.map strip) More.cells.
Proof.
  refine (exportToCSV_injective [lit "name"; lit "city"] More.cells
            (List.map (List.map strip) More.cells) _ _ _).
  - by repeat constructor.
  - by repeat constructor.
  - by vm_compute.
Defined.

Lemma filter_values_order_independent_witness :
  filter_values Example.str_Z
    (mkSeries object [Str (lit "b"); Str (lit "a"); Str (lit "b")])
  = filter_values Example.str_Z
      (mkSeries object [Str (lit "a"); Str (lit "b"); Str (lit "b")]).
Proof.
  refine (filter_values_order_independent Example.str_Z
            (mkSeries object [Str (lit "b"); Str (lit "a"); Str (lit "b")])
            (mkSeries object [Str (lit "a"); Str (lit "b"); Str (lit "b")])
            _).
  cbn [s_values]. apply perm_swap.
Defined.

Lemma to_html_short_cell_verbatim_witness :
  exists pre post,
    to_html Example.str_Z Example.long_cell (lit "data-table") table_classes
      false
    = pre ++ lit "<td>" ++ Example.long_value ++ lit "</td>" ++ post.
Proof.
  refine (to_html_short_cell_verbatim Example.str_Z Example.long_cell
            (lit "data-table") table_classes
            (lit "a", mkSeries object [Str Example.long_value]) 0
            Example.long_value _ _ _ _ _).
  - apply list_elem_of_In. by left.
  - reflexivity.
  - apply (bool_decide_unpack _). by vm_compute.
  - by vm_compute.
  - apply (bool_decide_unpack _). by vm_compute.
Defined.
